(** * Offline data entry app: cache/fetch reconciliation and queue export

    A shallow embedding of

    - [normalizeErpSystems] and [loadErpSystems] of the two ERP home
      screens (the first one retries once after a 401, the second one
      never refreshes tokens), and
    - [exportPendingFormsToFile] of the pending-forms export,

    together with the properties the specification states about them.

    JavaScript values are restricted to what a decoded JSON payload can
    hold (plus [undefined]): an array has no named members, and no object
    redefines [toString] or [valueOf].  Numbers are exact decimals
    [m * 10^e] with [NaN] and the two infinities; a number of a payload
    stands for the double it was decoded to.  Rounding of a mantissa to
    binary64 and underflow are not modelled, overflow of a numeric string
    to [Infinity] is.

    An [async] function is a finite tree of capability calls; the awaited
    calls are its suspension points.  The effect cleanup of React, which
    sets [cancelled], can run during any suspension. *)

From Stdlib Require Import ZArith List String Ascii Bool Lia DecimalString DecimalPos.
Import ListNotations.
Local Open Scope string_scope.
Local Open Scope Z_scope.

Set Implicit Arguments.
Set Warnings "-register-all".

(** ** JavaScript values *)

Module JS.

Inductive Number : Type :=
| NaN
| Infinity (negative : bool)
| Dec (m : Z) (e : Z).            (* the value m * 10^e *)

Inductive Value : Type :=
| undefined
| null
| JBool (b : bool)
| JNum (n : Number)
| JStr (s : string)
| JArr (items : list Value)
| JObj (fields : list (string * Value)).

Definition num (z : Z) : Value := JNum (Dec z 0).

(** *** Strings *)

Fixpoint includes (s needle : string) : bool :=
  prefix needle s
  || match s with
     | EmptyString => false
     | String _ rest => includes rest needle
     end.

Definition isDigit (c : ascii) : bool :=
  let n := Z.of_nat (nat_of_ascii c) in (48 <=? n) && (n <=? 57).

Definition digitValue (c : ascii) : Z := Z.of_nat (nat_of_ascii c) - 48.

(* value of a hexadecimal digit, when it is one *)
Definition hexValue (c : ascii) : option Z :=
  let n := Z.of_nat (nat_of_ascii c) in
  if (48 <=? n) && (n <=? 57) then Some (n - 48)
  else if (65 <=? n) && (n <=? 70) then Some (n - 55)
  else if (97 <=? n) && (n <=? 102) then Some (n - 87)
  else None.

Fixpoint spanDigits (s : string) : string * string :=
  match s with
  | EmptyString => (EmptyString, EmptyString)
  | String c rest =>
      if isDigit c
      then let (d, r) := spanDigits rest in (String c d, r)
      else (EmptyString, s)
  end.

Fixpoint digitsToZ (acc : Z) (s : string) : Z :=
  match s with
  | EmptyString => acc
  | String c rest => digitsToZ (10 * acc + digitValue c) rest
  end.

(* digits of an integer literal in the given radix; [None] on a foreign
   character *)
Fixpoint radixToZ (radix : Z) (acc : Z) (s : string) : option Z :=
  match s with
  | EmptyString => Some acc
  | String c rest =>
      match hexValue c with
      | Some d => if d <? radix then radixToZ radix (radix * acc + d) rest else None
      | None => None
      end
  end.

(* StrWhiteSpaceChar, ASCII part: TAB, LF, VT, FF, CR, SP *)
Definition isWhiteSpace (c : ascii) : bool :=
  let n := Z.of_nat (nat_of_ascii c) in ((9 <=? n) && (n <=? 13)) || (n =? 32).

Fixpoint trimStart (s : string) : string :=
  match s with
  | String c rest => if isWhiteSpace c then trimStart rest else s
  | EmptyString => EmptyString
  end.

Fixpoint trimEnd (s : string) : string :=
  match s with
  | EmptyString => EmptyString
  | String c rest =>
      match trimEnd rest with
      | EmptyString => if isWhiteSpace c then EmptyString else String c EmptyString
      | t => String c t
      end
  end.

Definition trim (s : string) : string := trimEnd (trimStart s).

(** *** Numbers *)

Definition isZero (n : Number) : bool :=
  match n with Dec m _ => m =? 0 | _ => false end.

(* Number.isFinite *)
Definition isFinite (n : Number) : bool :=
  match n with Dec _ _ => true | _ => false end.

(* A decimal at or beyond 2^1024 - 2^970 rounds to an infinity. *)
Definition overflowThreshold : Z := 2 ^ 1024 - 2 ^ 970.

Definition roundOverflow (m e : Z) : Number :=
  let big :=
    if 0 <=? e then overflowThreshold <=? Z.abs m * 10 ^ e
    else overflowThreshold * 10 ^ (- e) <=? Z.abs m in
  if big then Infinity (m <? 0) else Dec m e.

(* ExponentPart, with the text after it required to be empty *)
Definition parseExponent (s : string) : option Z :=
  match s with
  | EmptyString => Some 0
  | String c rest =>
      if (Ascii.eqb c "e" || Ascii.eqb c "E")%bool then
        let '(sign, body) :=
          match rest with
          | String "+" r => (1, r)
          | String "-" r => (-1, r)
          | _ => (1, rest)
          end in
        match spanDigits body with
        | (String d ds, EmptyString) => Some (sign * digitsToZ 0 (String d ds))
        | _ => None
        end
      else None
  end.

(* StrUnsignedDecimalLiteral without the Infinity alternative: the pair
   (mantissa, exponent) *)
Definition parseUnsignedDecimal (s : string) : option (Z * Z) :=
  let (ip, r1) := spanDigits s in
  let '(dot, fp, r2) :=
    match r1 with
    | String "." r => let (f, r') := spanDigits r in (true, f, r')
    | _ => (false, EmptyString, r1)
    end in
  let hasDigits := negb (String.eqb ip "" && String.eqb fp "") in
  if hasDigits && (dot || negb (String.eqb ip "")) then
    match parseExponent r2 with
    | Some x =>
        Some (digitsToZ (digitsToZ 0 ip) fp, x - Z.of_nat (String.length fp))
    | None => None
    end
  else None.

Definition parseRadix (radix : Z) (digits : string) : Number :=
  match digits with
  | EmptyString => NaN
  | _ => match radixToZ radix 0 digits with
         | Some z => roundOverflow z 0
         | None => NaN
         end
  end.

(* StringToNumber: the StringNumericLiteral grammar *)
Definition StringToNumber (s : string) : Number :=
  match trim s with
  | EmptyString => Dec 0 0
  | String "0" (String "x" r) | String "0" (String "X" r) => parseRadix 16 r
  | String "0" (String "o" r) | String "0" (String "O" r) => parseRadix 8 r
  | String "0" (String "b" r) | String "0" (String "B" r) => parseRadix 2 r
  | t =>
      let '(neg, body) :=
        match t with
        | String "+" r => (false, r)
        | String "-" r => (true, r)
        | _ => (false, t)
        end in
      if String.eqb body "Infinity" then Infinity neg
      else match parseUnsignedDecimal body with
           | Some (m, e) => roundOverflow (if neg then - m else m) e
           | None => NaN
           end
  end.

(* decimal digits of a non-negative integer *)
Definition digitsOf (z : Z) : string := NilZero.string_of_uint (N.to_uint (Z.to_N z)).

Fixpoint dropZeros (l : list ascii) : list ascii :=
  match l with
  | c :: rest => if Ascii.eqb c "0" then dropZeros rest else l
  | [] => []
  end.

Fixpoint zeros (n : nat) : string :=
  match n with O => EmptyString | S k => String "0" (zeros k) end.

(* Number::toString for a positive m * 10^e *)
Definition positiveToString (m e : Z) : string :=
  let all := list_ascii_of_string (digitsOf m) in
  let sig := rev (dropZeros (rev all)) in
  let s := string_of_list_ascii sig in
  let k := Z.of_nat (List.length sig) in
  let n := Z.of_nat (List.length all) + e in
  if (k <=? n) && (n <=? 21) then s ++ zeros (Z.to_nat (n - k))
  else if (0 <? n) && (n <=? 21) then
    substring 0 (Z.to_nat n) s ++ "." ++ substring (Z.to_nat n) (Z.to_nat (k - n)) s
  else if (-6 <? n) && (n <=? 0) then "0." ++ zeros (Z.to_nat (- n)) ++ s
  else
    let x := n - 1 in
    let expo := (if x <? 0 then "e-" else "e+") ++ digitsOf (Z.abs x) in
    if k =? 1 then s ++ expo
    else substring 0 1 s ++ "." ++ substring 1 (Z.to_nat (k - 1)) s ++ expo.

Definition NumberToString (n : Number) : string :=
  match n with
  | NaN => "NaN"
  | Infinity false => "Infinity"
  | Infinity true => "-Infinity"
  | Dec m e =>
      if m =? 0 then "0"
      else if m <? 0 then "-" ++ positiveToString (- m) e
      else positiveToString m e
  end.

(** *** Conversions and operators *)

(* ToBoolean *)
Definition truthy (v : Value) : bool :=
  match v with
  | undefined | null => false
  | JBool b => b
  | JNum n => negb (isZero n) && match n with NaN => false | _ => true end
  | JStr s => negb (String.eqb s "")
  | JArr _ | JObj _ => true
  end.

(* String(v) *)
Fixpoint ToString (v : Value) : string :=
  match v with
  | undefined => "undefined"
  | null => "null"
  | JBool true => "true"
  | JBool false => "false"
  | JNum n => NumberToString n
  | JStr s => s
  | JArr items =>
      (* Array.prototype.join: null and undefined elements print as empty *)
      (fix join (l : list Value) : string :=
         match l with
         | [] => ""
         | x :: rest =>
             let sx := match x with undefined | null => "" | _ => ToString x end in
             match rest with
             | [] => sx
             | _ => sx ++ "," ++ join rest
             end
         end) items
  | JObj _ => "[object Object]"
  end.

(* Number(v) *)
Definition ToNumber (v : Value) : Number :=
  match v with
  | undefined => NaN
  | null => Dec 0 0
  | JBool true => Dec 1 0
  | JBool false => Dec 0 0
  | JNum n => n
  | JStr s => StringToNumber s
  | JArr _ | JObj _ => StringToNumber (ToString v)
  end.

(* a ?? b *)
Definition nullish (v : Value) : bool :=
  match v with undefined | null => true | _ => false end.

Definition coalesce (a b : Value) : Value := if nullish a then b else a.

Infix "??" := coalesce (at level 61, left associativity).

(* Array.isArray *)
Definition isArray (v : Value) : bool :=
  match v with JArr _ => true | _ => false end.

(* typeof v === 'object' *)
Definition typeofObject (v : Value) : bool :=
  match v with null | JArr _ | JObj _ => true | _ => false end.

Fixpoint lookup (fields : list (string * Value)) (key : string) : Value :=
  match fields with
  | [] => undefined
  | (k, v) :: rest => if String.eqb k key then v else lookup rest key
  end.

(* v.key for a named (non-index, non-length) key.  A decoded payload has
   own properties on objects only; every use below is behind a truthiness
   test of v, so the access itself never throws. *)
Definition get (v : Value) (key : string) : Value :=
  match v with
  | JObj fields => lookup fields key
  | _ => undefined
  end.

(* v === 401 and the like *)
Definition strictEqualsInt (v : Value) (z : Z) : bool :=
  match v with
  | JNum (Dec m e) =>
      if 0 <=? e then m * 10 ^ e =? z else m =? z * 10 ^ (- e)
  | _ => false
  end.

End JS.

Import JS.

(** ** ErpSystem and payload normalization (both screens share the code) *)

Record ErpSystem : Type := {
  id : string;
  name : string;
  formCount : Number
}.

(* The body of the [for (const candidate of candidates)] loop: [Some l]
   when the iteration assigns [list = l] and breaks. *)
Definition candidateList (candidate : Value) : option (list Value) :=
  if isArray candidate then
    match candidate with JArr l => Some l | _ => None end
  else if truthy candidate && isArray (get candidate "data") then
    match get candidate "data" with JArr l => Some l | _ => None end
  else None.

Fixpoint firstCandidate (candidates : list Value) (list0 : list Value)
  : list Value :=
  match candidates with
  | [] => list0
  | candidate :: rest =>
      match candidateList candidate with
      | Some l => l
      | None => firstCandidate rest list0
      end
  end.

(* [raw?.data] *)
Definition optionalData (raw : Value) : Value :=
  if nullish raw then undefined else get raw "data".

Definition extractList (raw : Value) : list Value :=
  firstCandidate [optionalData raw; raw] [].

Definition resolveId (item : Value) : Value :=
  get item "id" ?? get item "ID" ?? get item "key" ?? get item "name"
    ?? get item "systemId" ?? JStr "".

Definition resolveName (item : Value) : Value :=
  get item "name" ?? get item "title" ?? get item "systemName" ?? JStr "".

Definition resolveFormCount (item : Value) : Value :=
  get item "formCount" ?? get item "form_count" ?? get item "formsCount"
    ?? get item "forms_count" ?? num 0.

Definition mapToErpSystem (item : Value) : option ErpSystem :=
  if negb (truthy item) || negb (typeofObject item) then None
  else
    let id := resolveId item in
    let name := resolveName item in
    let formCountValue := resolveFormCount item in
    if negb (truthy id) || negb (truthy name) then None
    else Some {| id := ToString id;
                 name := ToString name;
                 formCount := if isFinite (ToNumber formCountValue)
                              then ToNumber formCountValue
                              else Dec 0 0 |}.

(* [.filter(Boolean)] over the mapped array *)
Fixpoint filterBoolean (l : list (option ErpSystem)) : list ErpSystem :=
  match l with
  | [] => []
  | Some e :: rest => e :: filterBoolean rest
  | None :: rest => filterBoolean rest
  end.

Definition normalizeErpSystems (raw : Value) : list ErpSystem :=
  if negb (truthy raw) then []
  else filterBoolean (map mapToErpSystem (extractList raw)).

(** ** Asynchronous code as programs over capability calls

    An [async] function is a finite tree of capability calls.  A call that
    can reject answers [inl error]; [try]/[catch]/[finally] are the
    combinators below. *)

(* What the catch blocks inspect of a thrown error object. *)
Record Error : Type := {
  response : Value;              (* error.response *)
  status : option Value;         (* own property [status], when present *)
  statusCode : Value;
  message : option string
}.

(* new Error(text) *)
Definition newError (text : string) : Error :=
  {| response := undefined; status := None; statusCode := undefined;
     message := Some text |}.

Inductive prog (E : Type -> Type) (A : Type) : Type :=
| Ret (a : A)
| Vis (R : Type) (e : E R) (k : R -> prog E A).

Arguments Ret {E A} a.
Arguments Vis {E A R} e k.

Fixpoint bind {E A B} (p : prog E A) (f : A -> prog E B) : prog E B :=
  match p with
  | Ret a => f a
  | Vis e k => Vis e (fun r => bind (k r) f)
  end.

(* a computation that may throw *)
Definition M (E : Type -> Type) (A : Type) : Type := prog E (Error + A).

Definition ret {E A} (a : A) : M E A := Ret (inr a).
Definition throw {E A} (error : Error) : M E A := Ret (inl error).

Definition bindM {E A B} (p : M E A) (f : A -> M E B) : M E B :=
  bind p (fun r => match r with inl error => Ret (inl error) | inr a => f a end).

Definition tryCatch {E A} (body : M E A) (handler : Error -> M E A) : M E A :=
  bind body (fun r => match r with inl error => handler error | inr a => Ret (inr a) end).

Definition tryFinally {E A} (body : M E A) (finalizer : M E unit) : M E A :=
  bind body (fun r => bindM finalizer (fun _ => Ret r)).

(* a call that may reject, and one that cannot *)
Definition call {E R} (e : E (Error + R)%type) : M E R := Vis e Ret.
Definition perform {E R} (e : E R) : M E R := Vis e (fun r => Ret (inr r)).

Definition when {E} (b : bool) (p : M E unit) : M E unit :=
  if b then p else ret tt.

Declare Scope js_scope.
Delimit Scope js_scope with js.
Notation "x <- c ;; k" := (bindM c (fun x => k))
  (at level 100, c at next level, right associativity) : js_scope.
Notation "c ;; k" := (bindM c (fun _ => k))
  (at level 100, right associativity) : js_scope.

Inductive Level : Type := Log | Warn | Failure.

(** ** The ERP home screens *)

Inductive Eff : Type -> Type :=
(* services/erpStorage *)
| loadErpSystemsFromCache : Eff (Error + option (list ErpSystem))
| saveErpSystemsToCache (systems : list ErpSystem) : Eff (Error + unit)
(* lib/hey-api/client/sdk.gen *)
| getErpSystems : Eff (Error + Value)
(* await import('services/auth/tokenStorage'), then getIdToken *)
| importTokenStorage : Eff (Error + unit)
| getIdToken (forceRefresh : bool) : Eff (Error + option string)
(* await new Promise(resolve => setTimeout(resolve, ms)) *)
| setTimeout (ms : Z) : Eff unit
(* the closure variable [cancelled] and the component state *)
| readCancelled : Eff bool
| setErpSystems (systems : list ErpSystem) : Eff unit
| setLoading (value : bool) : Eff unit
| console (level : Level) (text : string) : Eff unit.

(* The calls the source awaits: the function is suspended until they
   settle. *)
Definition suspends {R} (e : Eff R) : bool :=
  match e with
  | loadErpSystemsFromCache | saveErpSystemsToCache _ | getErpSystems
  | importTokenStorage | getIdToken _ | setTimeout _ => true
  | _ => false
  end.

(* [cached && cached.length > 0] *)
Definition nonEmpty (cached : option (list ErpSystem)) : bool :=
  match cached with
  | Some (_ :: _) => true
  | _ => false
  end.

Definition orEmpty (cached : option (list ErpSystem)) : list ErpSystem :=
  match cached with Some l => l | None => [] end.

(* [if (refreshedToken)] *)
Definition tokenTruthy (token : option string) : bool :=
  match token with
  | Some t => negb (String.eqb t "")
  | None => false
  end.

(* [isConnected === false] *)
Definition isOffline (isConnected : option bool) : bool :=
  match isConnected with Some false => true | _ => false end.

Definition is401Error (error : Error) : bool :=
  strictEqualsInt
    (if nullish (response error) then undefined
     else get (response error) "status") 401
  || match status error with Some v => strictEqualsInt v 401 | None => false end
  || strictEqualsInt (statusCode error) 401
  || match status error with Some v => strictEqualsInt v 401 | None => false end
  || match message error with Some m => includes m "401" | None => false end
  || match message error with Some m => includes m "Unauthorized" | None => false end.

Local Open Scope js_scope.

(* The first statements of [loadErpSystems], the same on both screens up
   to the text logged: read the cache and show it. *)
Definition readCache (logLoaded : bool) (failureText : string)
  : M Eff (option (list ErpSystem)) :=
  tryCatch
    (cached <- call loadErpSystemsFromCache ;;
     cancelled <- perform readCancelled ;;
     when (negb cancelled && nonEmpty cached)
       (perform (setErpSystems (orEmpty cached)) ;;
        when logLoaded (perform (console Log "[Home] Loaded cached ERP systems:"))) ;;
     ret cached)
    (fun error =>
       perform (console Failure failureText) ;;
       ret None).

(* [finally { if (!cancelled) setLoading(false) }] *)
Definition stopLoading : M Eff unit :=
  cancelled <- perform readCancelled ;;
  when (negb cancelled) (perform (setLoading false)).

(** *** First screen: one refresh-and-retry after a 401 *)
Module Retrying.

Definition fallbackAfterRetry (cached : option (list ErpSystem)) : M Eff unit :=
  cancelled <- perform readCancelled ;;
  when (negb cancelled)
    (if nonEmpty cached then
       perform (setErpSystems (orEmpty cached)) ;;
       perform (console Log "[Home] Using cached ERP systems due to retry failure")
     else
       fallback <- call loadErpSystemsFromCache ;;
       if nonEmpty fallback then
         perform (setErpSystems (orEmpty fallback)) ;;
         perform (console Log "[Home] Using fallback cached ERP systems")
       else
         perform (setErpSystems []) ;;
         perform (console Warn "[Home] No cached ERP systems available")).

Definition fallbackNon401 (cached : option (list ErpSystem)) : M Eff unit :=
  cancelled <- perform readCancelled ;;
  when (negb cancelled)
    (if nonEmpty cached then
       perform (setErpSystems (orEmpty cached)) ;;
       perform (console Log "[Home] Using cached ERP systems due to non-401 error")
     else
       fallback <- call loadErpSystemsFromCache ;;
       if nonEmpty fallback then perform (setErpSystems (orEmpty fallback))
       else perform (setErpSystems [])).

Definition refreshAndRetry : M Eff unit :=
  perform (console Log "[Home] 401 error detected, refreshing token and retrying...") ;;
  call importTokenStorage ;;
  refreshedToken <- call (getIdToken true) ;;
  if tokenTruthy refreshedToken then
    perform (setTimeout 100) ;;
    retryResponse <- call getErpSystems ;;
    let systems := normalizeErpSystems retryResponse in
    cancelled <- perform readCancelled ;;
    when (negb cancelled) (perform (setErpSystems systems)) ;;
    call (saveErpSystemsToCache systems) ;;
    perform (console Log "[Home] ERP Systems loaded successfully after token refresh")
  else throw (newError "Failed to refresh authentication token").

Definition loadErpSystems (isConnected : option bool) : M Eff unit :=
  cancelled0 <- perform readCancelled ;;
  if (cancelled0 : bool) then ret tt
  else
    perform (setLoading true) ;;
    cached <- readCache false "Failed to read cached ERP systems:" ;;
    if isOffline isConnected then
      stopLoading ;;
      when (negb (nonEmpty cached))
        (perform (console Warn "Offline with no cached ERP systems available."))
    else
      tryFinally
        (tryCatch
           (response <- call getErpSystems ;;
            let systems := normalizeErpSystems response in
            cancelled <- perform readCancelled ;;
            when (negb cancelled) (perform (setErpSystems systems)) ;;
            call (saveErpSystemsToCache systems) ;;
            perform (console Log "ERP Systems:"))
           (fun error =>
              perform (console Failure "Error fetching ERP systems:") ;;
              if is401Error error then
                tryCatch refreshAndRetry
                  (fun retryError =>
                     perform (console Failure
                       "[Home] Error retrying ERP systems fetch after token refresh:") ;;
                     fallbackAfterRetry cached)
              else fallbackNon401 cached))
        stopLoading.

End Retrying.

(** *** Second screen: no token refresh, the cache is kept on any failure *)
Module CacheOnly.

Definition fallbackToCache (cached : option (list ErpSystem)) : M Eff unit :=
  cancelled <- perform readCancelled ;;
  when (negb cancelled)
    (if nonEmpty cached then
       perform (setErpSystems (orEmpty cached)) ;;
       perform (console Log "[Home] Using cached ERP systems (API failed)")
     else
       fallback <- call loadErpSystemsFromCache ;;
       if nonEmpty fallback then
         perform (setErpSystems (orEmpty fallback)) ;;
         perform (console Log "[Home] Using fallback cached ERP systems")
       else
         perform (setErpSystems []) ;;
         perform (console Warn "[Home] No cached ERP systems available")).

Definition loadErpSystems (isConnected : option bool) : M Eff unit :=
  cancelled0 <- perform readCancelled ;;
  if (cancelled0 : bool) then ret tt
  else
    perform (setLoading true) ;;
    cached <- readCache true "[Home] Failed to read cached ERP systems:" ;;
    if isOffline isConnected then
      stopLoading ;;
      (if negb (nonEmpty cached) then
         perform (console Warn "[Home] Offline with no cached ERP systems available.")
       else
         perform (console Log "[Home] Offline mode: Using cached ERP systems"))
    else
      tryFinally
        (tryCatch
           (perform (console Log "[Home] Online: Fetching fresh ERP systems from API...") ;;
            response <- call getErpSystems ;;
            let systems := normalizeErpSystems response in
            cancelled <- perform readCancelled ;;
            when (negb cancelled && negb (Nat.eqb (List.length systems) 0))
              (perform (setErpSystems systems) ;;
               call (saveErpSystemsToCache systems) ;;
               perform (console Log "[Home] Fresh ERP systems loaded and cached:")))
           (fun error =>
              perform (console Failure "[Home] Error fetching ERP systems from API:") ;;
              perform (console Log "[Home] API failed, keeping cached ERP systems") ;;
              fallbackToCache cached))
        stopLoading.

End CacheOnly.

Local Close Scope js_scope.

(** ** The surroundings of one run of [loadErpSystems] *)

(* The single blob kept under the cache key. *)
Inductive Blob : Type :=
| Absent
| Corrupt
| Snapshot (systems : list ErpSystem).

(* services/erpStorage as the screens use it. *)
Record Storage : Type := {
  load : Blob -> Error + option (list ErpSystem);
  (* the flag says that the device refuses the write *)
  save : bool -> list ErpSystem -> Blob -> (Error + unit) * Blob * list (Level * string)
}.

(** Modelled from the spec: services/erpStorage is not part of the sources.
    [load] "fails silently (returns Empty) on deserialization error or
    absent key; never throws to caller"; [save] "serializes and overwrites
    the single stored blob; failure is logged, not propagated". *)
Definition erpStorage : Storage := {|
  load := fun blob =>
    match blob with
    | Snapshot systems => inr (Some systems)
    | Absent | Corrupt => inr None
    end;
  save := fun refused systems blob =>
    if refused
    then (inr tt, blob, [(Failure, "Failed to save ERP systems to cache")])
    else (inr tt, Snapshot systems, [])
|}.

(* A storage whose [save] rejects when the device refuses the write; used
   only to show what the screens' catch blocks would do with it. *)
Definition rejectingStorage : Storage := {|
  load := load erpStorage;
  save := fun refused systems blob =>
    if refused
    then (inl (newError "AsyncStorage write failed"), blob, [])
    else (inr tt, Snapshot systems, [])
|}.

Inductive Event : Type :=
| CacheRead
| CacheWrite (systems : list ErpSystem)
| Fetch
| Import
| Refresh (forceRefresh : bool)
| Delay (ms : Z)
| SetErpSystems (systems : list ErpSystem) (afterTeardown : bool)
| SetLoading (value : bool).

(* What the environment answers during one run. *)
Record Env : Type := {
  network : nat -> Error + Value;     (* outcome of the n-th getErpSystems call *)
  refresh : Error + option string;    (* outcome of getIdToken({forceRefresh}) *)
  writeRefused : bool;                (* the device refuses cache writes *)
  teardown : nat -> bool              (* the effect cleanup runs during the
                                         n-th suspension of this run *)
}.

(* State shared by every run: the cache and the component state. *)
Record Shared : Type := {
  store : Blob;
  erpSystems : list ErpSystem;
  loading : bool;
  trace : list Event;
  logs : list (Level * string)
}.

(* State of one run: its [cancelled] flag and its counters. *)
Record Local : Type := {
  cancelled : bool;
  fetches : nat;
  suspensions : nat
}.

Definition record (ev : Event) (s : Shared) : Shared :=
  {| store := store s; erpSystems := erpSystems s; loading := loading s;
     trace := trace s ++ [ev]; logs := logs s |}.

Definition writeLogs (l : list (Level * string)) (s : Shared) : Shared :=
  {| store := store s; erpSystems := erpSystems s; loading := loading s;
     trace := trace s; logs := logs s ++ l |}.

Definition setStore (b : Blob) (s : Shared) : Shared :=
  {| store := b; erpSystems := erpSystems s; loading := loading s;
     trace := trace s; logs := logs s |}.

(* The run is suspended once more; the cleanup may run meanwhile. *)
Definition suspend (env : Env) (l : Local) : Local :=
  {| cancelled := cancelled l || teardown env (suspensions l);
     fetches := fetches l;
     suspensions := S (suspensions l) |}.

Definition countFetch (l : Local) : Local :=
  {| cancelled := cancelled l; fetches := S (fetches l);
     suspensions := suspensions l |}.

Definition fresh : Local :=
  {| cancelled := false; fetches := 0; suspensions := 0 |}.

Definition handle (st : Storage) (env : Env) {R} (e : Eff R)
  (s : Shared) (l : Local) : Shared * Local * R :=
  match e in Eff R return Shared * Local * R with
  | loadErpSystemsFromCache =>
      (record CacheRead s, suspend env l, load st (store s))
  | saveErpSystemsToCache systems =>
      let '(r, blob, lg) := save st (writeRefused env) systems (store s) in
      (writeLogs lg (setStore blob (record (CacheWrite systems) s)),
       suspend env l, r)
  | getErpSystems =>
      (record Fetch s, suspend env (countFetch l), network env (fetches l))
  | importTokenStorage => (record Import s, suspend env l, inr tt)
  | getIdToken forceRefresh =>
      (record (Refresh forceRefresh) s, suspend env l, refresh env)
  | setTimeout ms => (record (Delay ms) s, suspend env l, tt)
  | readCancelled => (s, l, cancelled l)
  | setErpSystems systems =>
      ({| store := store s; erpSystems := systems; loading := loading s;
          trace := trace s ++ [SetErpSystems systems (cancelled l)];
          logs := logs s |}, l, tt)
  | setLoading value =>
      ({| store := store s; erpSystems := erpSystems s; loading := value;
          trace := trace s ++ [SetLoading value]; logs := logs s |}, l, tt)
  | console level text => (writeLogs [(level, text)] s, l, tt)
  end.

(* One run from start to settlement. *)
Fixpoint run (st : Storage) (env : Env) {A} (p : prog Eff A)
  (s : Shared) (l : Local) : Shared * Local * A :=
  match p with
  | Ret a => (s, l, a)
  | Vis e k => let '(s', l', r) := handle st env e s l in run st env (k r) s' l'
  end.

(* Resume a suspended run: the synchronous code up to and including the
   next awaited call. *)
Fixpoint advance (st : Storage) (env : Env) {A} (p : prog Eff A)
  (s : Shared) (l : Local) : Shared * Local * prog Eff A :=
  match p with
  | Ret a => (s, l, Ret a)
  | Vis e k =>
      let '(s', l', r) := handle st env e s l in
      if suspends e then (s', l', k r) else advance st env (k r) s' l'
  end.

(** Two runs of the same component, interleaved on the one event loop. *)
Inductive Turn : Type :=
| Older          (* the older run resumes *)
| Newer          (* the newer run resumes *)
| Cleanup.       (* React runs the older effect's cleanup: cancelled = true *)

Record Task : Type := {
  env : Env;
  local : Local;
  code : prog Eff (Error + unit)
}.

Definition resume (st : Storage) (t : Task) (s : Shared) : Shared * Task :=
  let '(s', l', p') := advance st (env t) (code t) s (local t) in
  (s', {| env := env t; local := l'; code := p' |}).

Definition cancel (t : Task) : Task :=
  {| env := env t;
     local := {| cancelled := true; fetches := fetches (local t);
                 suspensions := suspensions (local t) |};
     code := code t |}.

Fixpoint interleave (st : Storage) (turns : list Turn)
  (older newer : Task) (s : Shared) : Shared * Task * Task :=
  match turns with
  | [] => (s, older, newer)
  | Older :: rest =>
      let (s', older') := resume st older s in interleave st rest older' newer s'
  | Newer :: rest =>
      let (s', newer') := resume st newer s in interleave st rest older newer' s'
  | Cleanup :: rest => interleave st rest (cancel older) newer s
  end.

(* The cache and the list on screen, with nothing recorded yet. *)
Definition mounted (blob : Blob) (shown : list ErpSystem) : Shared :=
  {| store := blob; erpSystems := shown; loading := true; trace := []; logs := [] |}.

Definition never : nat -> bool := fun _ => false.

(* the number of fetch calls in a trace *)
Fixpoint countFetches (t : list Event) : nat :=
  match t with
  | [] => 0
  | Fetch :: rest => S (countFetches rest)
  | _ :: rest => countFetches rest
  end.

(** ** Pending-forms export (utils/exportPendingForms) *)

Inductive ExportPendingFormsStatus : Type :=
| StatusEmpty
| StatusSuccess (filePath fileName directory : string)
| StatusError (cause : option Error).        (* [lastError], null at first *)

Inductive FsE : Type -> Type :=
| getQueue : FsE (Error + Value)
| RNFS_exists (path : string) : FsE (Error + bool)
| RNFS_mkdir (path : string) : FsE (Error + unit)
| RNFS_writeFile (path contents encoding : string) : FsE (Error + unit)
| consoleFs (level : Level) (text : string) : FsE unit.

(* Platform.OS and the directory constants of react-native-fs; a constant
   the platform does not define is [None]. *)
Record Platform : Type := {
  OS : string;
  DownloadDirectoryPath : option string;
  ExternalStorageDirectoryPath : option string;
  DocumentDirectoryPath : string
}.

(* [.replace(/[:.]/g, '-')] *)
Fixpoint replaceColonsAndPeriods (s : string) : string :=
  match s with
  | EmptyString => EmptyString
  | String c rest =>
      String (if (Ascii.eqb c ":" || Ascii.eqb c ".")%bool then "-"%char else c)
             (replaceColonsAndPeriods rest)
  end.

(* [timestamp] is new Date().toISOString() *)
Definition buildFileName (isoNow : string) : string :=
  "pending_forms_" ++ replaceColonsAndPeriods isoNow ++ ".json".

Definition pathTruthy (path : option string) : bool :=
  match path with
  | Some p => negb (String.eqb p "")
  | None => false
  end.

Definition targetDirectories (platform : Platform) : list string :=
  if String.eqb (OS platform) "android" then
    (if pathTruthy (DownloadDirectoryPath platform)
     then [match DownloadDirectoryPath platform with Some p => p | None => "" end]
     else [])
    ++ (if pathTruthy (ExternalStorageDirectoryPath platform)
        then [match ExternalStorageDirectoryPath platform with
              | Some p => p ++ "/Download"
              | None => ""
              end]
        else [])
    ++ [DocumentDirectoryPath platform]
  else [DocumentDirectoryPath platform].

Local Open Scope js_scope.

(* The body of the [try] inside the loop over the directories. *)
Definition writeTo (fileName payload directory : string)
  : M FsE ExportPendingFormsStatus :=
  dirExists <- call (RNFS_exists directory) ;;
  when (negb dirExists) (call (RNFS_mkdir directory)) ;;
  let filePath := directory ++ "/" ++ fileName in
  call (RNFS_writeFile filePath payload "utf8") ;;
  fileExists <- call (RNFS_exists filePath) ;;
  if negb fileExists then throw (newError "File was not created successfully")
  else
    perform (consoleFs Log "[Export] File saved successfully to:") ;;
    ret (StatusSuccess filePath fileName directory).

Fixpoint tryDirectories (fileName payload : string) (directories : list string)
  (lastError : option Error) : M FsE ExportPendingFormsStatus :=
  match directories with
  | [] =>
      perform (consoleFs Failure "[Export] All directory attempts failed:") ;;
      ret (StatusError lastError)
  | directory :: rest =>
      tryCatch (writeTo fileName payload directory)
        (fun error =>
           perform (consoleFs Failure "[Export] Failed to write to") ;;
           tryDirectories fileName payload rest (Some error))
  end.

(* [!Array.isArray(queue) || queue.length === 0] *)
Definition queueIsEmpty (queue : Value) : bool :=
  match queue with
  | JArr (_ :: _) => false
  | _ => true
  end.

(* [stringify] is JSON.stringify(queue, null, 2). *)
Definition exportPendingFormsToFile (platform : Platform) (isoNow : string)
  (stringify : Value -> string) : M FsE ExportPendingFormsStatus :=
  queue <- call getQueue ;;
  if queueIsEmpty queue then ret StatusEmpty
  else
    let fileName := buildFileName isoNow in
    let payload := stringify queue in
    tryDirectories fileName payload (targetDirectories platform) None.

Local Close Scope js_scope.

(* react-native-fs over some file-system state. *)
Record Rnfs (Fs : Type) : Type := {
  fsExists : string -> Fs -> (Error + bool) * Fs;
  fsMkdir : string -> Fs -> (Error + unit) * Fs;
  fsWriteFile : string -> string -> Fs -> (Error + unit) * Fs
}.

Inductive FsCall : Type :=
| Exists (path : string)
| Mkdir (path : string)
| WriteFile (path contents : string).

Record Disk (Fs : Type) : Type := {
  files : Fs;
  pending : Error + Value;          (* what getQueue settles with *)
  calls : list FsCall;              (* the RNFS calls made so far *)
  exportLogs : list (Level * string)
}.

Arguments Build_Disk {Fs}.

Definition called {Fs} (c : FsCall) (fs' : Fs) (d : Disk Fs) : Disk Fs :=
  {| files := fs'; pending := pending d; calls := calls d ++ [c];
     exportLogs := exportLogs d |}.

Definition handleFs {Fs} (impl : Rnfs Fs) {R} (e : FsE R) (d : Disk Fs)
  : Disk Fs * R :=
  match e in FsE R return Disk Fs * R with
  | getQueue => (d, pending d)
  | RNFS_exists path =>
      let (r, fs') := fsExists impl path (files d) in (called (Exists path) fs' d, r)
  | RNFS_mkdir path =>
      let (r, fs') := fsMkdir impl path (files d) in (called (Mkdir path) fs' d, r)
  | RNFS_writeFile path contents _ =>
      let (r, fs') := fsWriteFile impl path contents (files d) in
      (called (WriteFile path contents) fs' d, r)
  | consoleFs level text =>
      ({| files := files d; pending := pending d; calls := calls d;
          exportLogs := exportLogs d ++ [(level, text)] |}, tt)
  end.

Fixpoint runFs {Fs} (impl : Rnfs Fs) {A} (p : prog FsE A) (d : Disk Fs)
  : Disk Fs * A :=
  match p with
  | Ret a => (d, a)
  | Vis e k => let (d', r) := handleFs impl e d in runFs impl (k r) d'
  end.

(* An in-memory file system: the paths that exist, the directories that
   refuse every operation, and the directories that lose what is written
   into them. *)
Record MemFs : Type := {
  paths : list string;
  refusing : list string;
  losing : list string
}.

Definition under (directories : list string) (path : string) : bool :=
  existsb (fun d => prefix d path) directories.

Definition memFs : Rnfs MemFs := {|
  fsExists := fun path fs =>
    (inr (existsb (String.eqb path) (paths fs)), fs);
  fsMkdir := fun path fs =>
    if under (refusing fs) path
    then (inl (newError "EACCES: permission denied"), fs)
    else (inr tt, {| paths := path :: paths fs; refusing := refusing fs;
                     losing := losing fs |});
  fsWriteFile := fun path contents fs =>
    if under (refusing fs) path
    then (inl (newError "EACCES: permission denied"), fs)
    else if under (losing fs) path then (inr tt, fs)
    else (inr tt, {| paths := path :: paths fs; refusing := refusing fs;
                     losing := losing fs |})
|}.

(** ** One reconciliation *)

Inductive Screen : Type :=
| FirstScreen        (* retries once after a 401 *)
| SecondScreen.      (* never refreshes tokens *)

Definition loadErpSystemsOf (screen : Screen) : option bool -> M Eff unit :=
  match screen with
  | FirstScreen => Retrying.loadErpSystems
  | SecondScreen => CacheOnly.loadErpSystems
  end.

(* A run of the effect of a screen showing [shown], over the cache [blob],
   with services/erpStorage as the specification describes it. *)
Definition reconcile (screen : Screen) (env : Env) (isConnected : option bool)
  (blob : Blob) (shown : list ErpSystem) : Shared * Local * (Error + unit) :=
  run erpStorage env (loadErpSystemsOf screen isConnected) (mounted blob shown) fresh.

Definition after {A} (outcome : Shared * Local * A) : Shared := fst (fst outcome).
Definition settled {A} (outcome : Shared * Local * A) : A := snd outcome.

(* what the cache holds, as a list *)
Definition snapshotOf (blob : Blob) : list ErpSystem :=
  match blob with
  | Snapshot systems => systems
  | Absent | Corrupt => []
  end.

(* The payload a run obtains from the remote fetch, if any: the answer to
   the first call or, where the first screen retries after a 401 with a
   refreshed token, the answer to the repeated call. *)
Definition fetched (screen : Screen) (env : Env) : option Value :=
  match network env 0 with
  | inr raw => Some raw
  | inl error =>
      match screen with
      | SecondScreen => None
      | FirstScreen =>
          if is401Error error then
            match refresh env with
            | inl _ => None
            | inr token =>
                if tokenTruthy token then
                  match network env 1 with
                  | inr raw => Some raw
                  | inl _ => None
                  end
                else None
            end
          else None
      end
  end.

Definition fetchFails (screen : Screen) (env : Env) : bool :=
  match fetched screen env with
  | Some _ => false
  | None => true
  end.

(* the calls that leave the device, in order *)
Definition remoteCalls (t : list Event) : list Event :=
  filter (fun ev => match ev with
                    | Fetch | Import | Refresh _ | Delay _ => true
                    | _ => false
                    end) t.

Definition withWriteRefused (refused : bool) (env : Env) : Env :=
  {| network := network env; refresh := refresh env;
     writeRefused := refused; teardown := teardown env |}.

Definition cacheWrites (t : list Event) : list (list ErpSystem) :=
  flat_map (fun ev => match ev with CacheWrite systems => [systems] | _ => [] end) t.



Definition isEmpty (systems : list ErpSystem) : bool :=
  match systems with [] => true | _ => false end.

(* the run's own flag and counters at the end *)
Definition flags {A} (outcome : Shared * Local * A) : Local := snd (fst outcome).

Definition task (env : Env) (p : prog Eff (Error + unit)) : Task :=
  {| env := env; local := fresh; code := p |}.

(** *** Sample data: the scenario of the specification *)

Definition cachedCSA : ErpSystem :=
  {| id := "1"; name := "CSA"; formCount := Dec 2 0 |}.

Definition freshCSA : ErpSystem :=
  {| id := "1"; name := "CSA"; formCount := Dec 5 0 |}.

Definition freshPayload : Value :=
  JObj [("data", JArr [JObj [("id", JStr "1"); ("name", JStr "CSA");
                             ("formCount", num 5)]])].

Definition stalePayload : Value :=
  JObj [("data", JArr [JObj [("id", JStr "1"); ("name", JStr "CSA");
                             ("formCount", num 2)]])].

Definition emptyPayload : Value := JObj [("data", JArr [])].

Definition unauthorized : Error :=
  {| response := JObj [("status", num 401)]; status := None;
     statusCode := undefined; message := Some "Request failed" |}.

Definition serverDown : Error := newError "Network request failed".

(* the first call is refused with a 401, later calls succeed *)
Definition expiredTokenEnv : Env :=
  {| network := fun n => match n with O => inl unauthorized | _ => inr freshPayload end;
     refresh := inr (Some "token");
     writeRefused := false;
     teardown := never |}.

Definition answering (outcome : Error + Value) (refused : bool)
  (cleanup : nat -> bool) : Env :=
  {| network := fun _ => outcome; refresh := inr (Some "token");
     writeRefused := refused; teardown := cleanup |}.

(** ** One export *)

(* One candidate directory tried on its own. *)
Definition attempt {Fs} (impl : Rnfs Fs) (fileName payload directory : string)
  (d : Disk Fs) : Disk Fs * (Error + ExportPendingFormsStatus) :=
  runFs impl (writeTo fileName payload directory) d.

Definition noteFailure {Fs} (text : string) (d : Disk Fs) : Disk Fs :=
  {| files := files d; pending := pending d; calls := calls d;
     exportLogs := exportLogs d ++ [(Failure, text)] |}.

(* Every directory of the list fails in turn: the disk afterwards and the
   failure recorded last ([last] when the list is empty); [None] as soon as
   one of them succeeds. *)
Fixpoint allFail {Fs} (impl : Rnfs Fs) (fileName payload : string)
  (directories : list string) (d : Disk Fs) (last : option Error)
  : option (Disk Fs * option Error) :=
  match directories with
  | [] => Some (d, last)
  | directory :: rest =>
      match attempt impl fileName payload directory d with
      | (d1, inl error) =>
          allFail impl fileName payload rest
            (noteFailure "[Export] Failed to write to" d1) (Some error)
      | (_, inr _) => None
      end
  end.

(* the call concerns the directory or the export file inside it *)
Definition touches (fileName directory : string) (c : FsCall) : bool :=
  match c with
  | Exists path =>
      String.eqb path directory || String.eqb path (directory ++ "/" ++ fileName)
  | Mkdir path => String.eqb path directory
  | WriteFile path _ => String.eqb path (directory ++ "/" ++ fileName)
  end.

(* the calls made from [d] to [d'] concern these directories only *)
Definition onlyTouched {Fs} (fileName : string) (directories : list string)
  (d d' : Disk Fs) : Prop :=
  exists made,
    calls d' = (calls d ++ made)%list
    /\ Forall (fun c => existsb (fun dir => touches fileName dir c) directories = true)
              made.

Definition samplePhone : Platform :=
  {| OS := "android";
     DownloadDirectoryPath := Some "/storage/emulated/0/Download";
     ExternalStorageDirectoryPath := Some "/mnt/sdcard";
     DocumentDirectoryPath := "/data/user/0/app/files" |}.

Definition sampleQueue : Value :=
  JArr [JObj [("formId", JStr "a")]; JObj [("formId", JStr "b")];
        JObj [("formId", JStr "c")]].

(* the public downloads folder refuses the app *)
Definition sampleDisk : Disk MemFs :=
  Build_Disk {| paths := ["/data/user/0/app/files"];
                refusing := ["/storage/emulated/0"];
                losing := [] |}
             (inr sampleQueue) [] [].

(** ** The specification's wording, for comparison with the code *)

(* "if raw.data is a sequence, use it; else if raw itself is a sequence,
   use it; else if raw.data.data is a sequence, use it; else empty
   sequence" *)
Definition candidateListInSpecOrder (raw : Value) : list Value :=
  match get raw "data", raw, get (get raw "data") "data" with
  | JArr l, _, _ => l
  | _, JArr l, _ => l
  | _, _, JArr l => l
  | _, _, _ => []
  end.

(* "the first present of" the given keys, with a default *)
Fixpoint firstPresent (item : Value) (keys : list string) (default : Value)
  : Value :=
  match keys with
  | [] => default
  | key :: rest =>
      if nullish (get item key) then firstPresent item rest default
      else get item key
  end.

(* "integer >= 0" *)
Definition isNonNegativeInteger (n : Number) : bool :=
  match n with
  | Dec m e => (0 <=? m) && ((0 <=? e) || (m mod 10 ^ (- e) =? 0))
  | _ => false
  end.

(* an item is dropped by the code exactly when this holds *)
Definition unusable (item : Value) : bool :=
  negb (truthy item) || negb (typeofObject item)
  || negb (truthy (resolveId item)) || negb (truthy (resolveName item)).

(* the records kept out of a candidate list, as [normalizeErpSystems]
   builds them *)
Definition survivors (items : list Value) : list ErpSystem :=
  filterBoolean (map mapToErpSystem items).

Definition formCountKeys : list string :=
  ["formCount"; "form_count"; "formsCount"; "forms_count"].

(* every digit of a decimal numeral is 0 *)
Fixpoint allZero (d : Decimal.uint) : bool :=
  match d with
  | Decimal.Nil => true
  | Decimal.D0 rest => allZero rest
  | _ => false
  end.

(** ** Further code of the same files *)

(* Programs over any family of calls, run by a handler on some state. *)
Fixpoint interp {E : Type -> Type} {S A : Type}
  (h : forall R, E R -> S -> S * R) (p : prog E A) (s : S) : S * A :=
  match p with
  | Ret a => (s, a)
  | Vis e k => let (s', r) := h _ e s in interp h (k r) s'
  end.

(* [v?.key] *)
Definition optionalGet (v : Value) (key : string) : Value :=
  if nullish v then undefined else get v key.

(** *** The spinner of the ERP screens *)

(* [loading && erpSystems.length === 0] *)
Definition showsSpinner (s : Shared) : bool :=
  loading s && isEmpty (erpSystems s).

Fixpoint countEvent (test : Event -> bool) (t : list Event) : nat :=
  match t with
  | [] => 0
  | ev :: rest => (if test ev then 1 else 0) + countEvent test rest
  end.

Definition isCacheRead (ev : Event) : bool :=
  match ev with CacheRead => true | _ => false end.

Definition isRefresh (ev : Event) : bool :=
  match ev with Refresh _ => true | _ => false end.


(* the record as the payload and the cache spell it *)
Definition encode (e : ErpSystem) : Value :=
  JObj [("id", JStr (id e)); ("name", JStr (name e));
        ("formCount", JNum (formCount e))].

Definition wellFormed (e : ErpSystem) : bool :=
  negb (String.eqb (id e) "") && negb (String.eqb (name e) "")
  && isFinite (formCount e).

(** *** The pending-forms badge of the ERP screens *)

Inductive BadgeE : Type -> Type :=
| getQueueForBadge : BadgeE (Error + Value)
| setPendingFormsCount (count : nat) : BadgeE unit
| consoleBadge (level : Level) (text : string) : BadgeE unit.

Local Open Scope js_scope.

Definition fetchPendingFormsCount : M BadgeE unit :=
  tryCatch
    (pendingSubmissions <- call getQueueForBadge ;;
     match pendingSubmissions with
     | JArr items => perform (setPendingFormsCount (List.length items))
     | _ => perform (setPendingFormsCount 0)
     end)
    (fun e =>
       perform (consoleBadge Failure "Error fetching pending forms count:") ;;
       perform (setPendingFormsCount 0)).

Local Close Scope js_scope.

Record Badge : Type := {
  pendingFormsCount : nat;
  countUpdates : list nat;              (* the setPendingFormsCount calls *)
  badgeLogs : list (Level * string)
}.

Definition handleBadge (queue : Error + Value) {R} (e : BadgeE R) (b : Badge)
  : Badge * R :=
  match e in BadgeE R return Badge * R with
  | getQueueForBadge => (b, queue)
  | setPendingFormsCount count =>
      ({| pendingFormsCount := count;
          countUpdates := countUpdates b ++ [count];
          badgeLogs := badgeLogs b |}, tt)
  | consoleBadge level text =>
      ({| pendingFormsCount := pendingFormsCount b;
          countUpdates := countUpdates b;
          badgeLogs := badgeLogs b ++ [(level, text)] |}, tt)
  end.

(** *** File names of the export *)

Definition isSeparator (c : ascii) : bool :=
  (Ascii.eqb c ":" || Ascii.eqb c ".")%bool.

Fixpoint occurrences (c : ascii) (s : string) : nat :=
  match s with
  | EmptyString => 0
  | String x rest => (if Ascii.eqb x c then 1 else 0) + occurrences c rest
  end.

(* two timestamps of one length that differ at no colon and no period *)
Fixpoint sameSeparators (a b : string) : bool :=
  match a, b with
  | EmptyString, EmptyString => true
  | String x a', String y b' =>
      (if isSeparator x || isSeparator y then Ascii.eqb x y else true)
      && sameSeparators a' b'
  | _, _ => false
  end.

Definition isExists (c : FsCall) : bool :=
  match c with Exists _ => true | _ => false end.

Definition isWriteFile (c : FsCall) : bool :=
  match c with WriteFile _ _ => true | _ => false end.

(** *** The export hook (hooks/usePendingFormsExport) *)

(* t(key, params) of react-i18next, left untranslated *)
Definition Text : Type := string * list (string * string).
Definition t (key : string) (params : list (string * string)) : Text :=
  (key, params).

Inductive ShareAction : Type := sharedAction | dismissedAction.

Record ShareContent : Type := {
  shareTitle : Text;
  shareMessage : Text;
  url : string;
  dialogTitle : Text;
  subject : string
}.

Inductive HookE : Type -> Type :=
| fsCall {R} (e : FsE R) : HookE R
| setIsExporting (value : bool) : HookE unit
(* Alert.alert(title, message[, [OK button]]) *)
| Alert_alert (title message : Text) (okButton : bool) : HookE unit
| Share_share (content : ShareContent) : HookE (Error + ShareAction)
| consoleHook (level : Level) (text : string) : HookE unit.

Fixpoint liftFs {A} (p : prog FsE A) : prog HookE A :=
  match p with
  | Ret a => Ret a
  | Vis e k => Vis (fsCall e) (fun r => liftFs (k r))
  end.

Local Open Scope js_scope.

(* [isExporting] is the value the callback closed over. *)
Definition handleExport (isExporting : bool) (platform : Platform)
  (isoNow : string) (stringify : Value -> string) : M HookE unit :=
  if isExporting then ret tt
  else
    tryFinally
      (tryCatch
         (perform (setIsExporting true) ;;
          result <- liftFs (exportPendingFormsToFile platform isoNow stringify) ;;
          match result with
          | StatusEmpty =>
              perform (Alert_alert (t "settings.exportNoFormsTitle" [])
                                   (t "settings.exportNoFormsMessage" []) false)
          | StatusError cause =>
              perform (consoleHook Failure "Error exporting pending forms:") ;;
              perform (Alert_alert (t "settings.exportErrorTitle" [])
                                   (t "settings.exportErrorMessage" []) false)
          | StatusSuccess filePath fileName directory =>
              fileExists <- call (fsCall (RNFS_exists filePath)) ;;
              if negb fileExists
              then throw (newError "Exported file does not exist")
              else
                perform (Alert_alert
                           (t "settings.exportSuccessTitle" [])
                           (t "settings.exportSuccessMessage" [("fileName", fileName)])
                           true)
          end)
         (fun e =>
            perform (consoleHook Failure "Unexpected error exporting pending forms:") ;;
            perform (Alert_alert (t "settings.exportErrorTitle" [])
                                 (t "settings.exportErrorMessage" []) false)))
      (perform (setIsExporting false)).

Definition locationAlert (fileName directory : string) : M HookE unit :=
  perform (Alert_alert
             (t "settings.exportFileLocationTitle" [])
             (t "settings.exportFileLocationMessage"
                [("fileName", fileName); ("directory", directory)])
             false).

(* The file URL the OK button computes. *)
Definition fileUrlOf (platform : Platform) (filePath directory : string) : string :=
  if String.eqb (OS platform) "android" then
    if includes directory "Download" then "file://" ++ filePath
    else "file://" ++ filePath
  else "file://" ++ filePath.

(* [onPress] of the OK button of the success alert. *)
Definition onPressOk (platform : Platform) (filePath fileName directory : string)
  : M HookE unit :=
  tryCatch
    (let fileUrl := fileUrlOf platform filePath directory in
     shareResult <- call (Share_share
                            {| shareTitle := t "settings.exportShareTitle" [];
                               shareMessage := t "settings.exportShareMessage"
                                                 [("fileName", fileName)];
                               url := fileUrl;
                               dialogTitle := t "settings.exportShareTitle" [];
                               subject := fileName |}) ;;
     when (String.eqb (OS platform) "android"
           && match shareResult with dismissedAction => true | sharedAction => false end)
       (locationAlert fileName directory))
    (fun shareError =>
       perform (consoleHook Failure "Error sharing file:") ;;
       locationAlert fileName directory).

Local Close Scope js_scope.

Record Alert : Type := {
  alertTitle : Text;
  alertMessage : Text;
  hasOkButton : bool
}.

Record Hook (Fs : Type) : Type := {
  disk : Disk Fs;
  exporting : bool;                       (* the state behind setIsExporting *)
  exportingUpdates : list bool;
  alerts : list Alert;
  shared : list ShareContent;
  shareOutcome : Error + ShareAction;     (* what Share.share settles with *)
  hookLogs : list (Level * string)
}.

Arguments Build_Hook {Fs}.

Definition handleHook {Fs} (impl : Rnfs Fs) {R} (e : HookE R) (h : Hook Fs)
  : Hook Fs * R :=
  match e in HookE R return Hook Fs * R with
  | fsCall e' =>
      let (d', r) := handleFs impl e' (disk h) in
      (Build_Hook d' (exporting h) (exportingUpdates h) (alerts h) (shared h)
                  (shareOutcome h) (hookLogs h), r)
  | setIsExporting value =>
      (Build_Hook (disk h) value (exportingUpdates h ++ [value]) (alerts h)
                  (shared h) (shareOutcome h) (hookLogs h), tt)
  | Alert_alert title message okButton =>
      (Build_Hook (disk h) (exporting h) (exportingUpdates h)
                  (alerts h ++ [{| alertTitle := title; alertMessage := message;
                                   hasOkButton := okButton |}])
                  (shared h) (shareOutcome h) (hookLogs h), tt)
  | Share_share content =>
      (Build_Hook (disk h) (exporting h) (exportingUpdates h) (alerts h)
                  (shared h ++ [content]) (shareOutcome h) (hookLogs h),
       shareOutcome h)
  | consoleHook level text =>
      (Build_Hook (disk h) (exporting h) (exportingUpdates h) (alerts h)
                  (shared h) (shareOutcome h) (hookLogs h ++ [(level, text)]), tt)
  end.

Definition idle {Fs} (d : Disk Fs) (outcome : Error + ShareAction) : Hook Fs :=
  Build_Hook d false [] [] [] outcome [].

Definition errorAlert : Alert :=
  {| alertTitle := t "settings.exportErrorTitle" [];
     alertMessage := t "settings.exportErrorMessage" [];
     hasOkButton := false |}.

Definition noFormsAlert : Alert :=
  {| alertTitle := t "settings.exportNoFormsTitle" [];
     alertMessage := t "settings.exportNoFormsMessage" [];
     hasOkButton := false |}.

Definition successAlert (fileName : string) : Alert :=
  {| alertTitle := t "settings.exportSuccessTitle" [];
     alertMessage := t "settings.exportSuccessMessage" [("fileName", fileName)];
     hasOkButton := true |}.

Definition fileLocationAlert (fileName directory : string) : Alert :=
  {| alertTitle := t "settings.exportFileLocationTitle" [];
     alertMessage := t "settings.exportFileLocationMessage"
                       [("fileName", fileName); ("directory", directory)];
     hasOkButton := false |}.

(** *** The start-up check of the app (app/App.tsx) *)

Inductive Route : Type := Login | MainApp.

Inductive AuthE : Type -> Type :=
| getAuthTokens : AuthE (Error + Value)
(* NetInfo.fetch(), read through [networkState.isConnected] *)
| NetInfo_fetch : AuthE (Error + option bool)
| refreshAuthTokens : AuthE (Error + unit)
| setInitialRoute (route : Route) : AuthE unit
| setIsLoading (value : bool) : AuthE unit
| consoleApp (level : Level) (text : string) : AuthE unit.

(* [(tokenError as Error)?.message || ''] *)
Definition messageOrEmpty (e : Error) : string :=
  match message e with
  | Some m => m
  | None => ""
  end.

Local Open Scope js_scope.

Definition checkAuthState : M AuthE unit :=
  tryFinally
    (tryCatch
       (storedTokens <- call getAuthTokens ;;
        if truthy (optionalGet storedTokens "idToken") then
          isOnline <- call NetInfo_fetch ;;
          perform (consoleApp Log "[App] Network status:") ;;
          if match isOnline with Some true => true | _ => false end then
            tryCatch
              (perform (consoleApp Log "[App] Refreshing tokens on startup...") ;;
               call refreshAuthTokens ;;
               perform (consoleApp Log "[App] Tokens refreshed successfully") ;;
               perform (setInitialRoute MainApp))
              (fun tokenError =>
                 perform (consoleApp Failure "[App] Failed to refresh tokens on startup:") ;;
                 let errorMessage := messageOrEmpty tokenError in
                 if includes errorMessage "SESSION_EXPIRED" then
                   perform (consoleApp Log "[App] Session expired, require re-login") ;;
                   perform (setInitialRoute Login)
                 else
                   perform (consoleApp Log
                     "[App] Token refresh failed but allowing access with cached tokens") ;;
                   perform (setInitialRoute MainApp))
          else
            perform (consoleApp Log
              "[App] Offline mode: Using cached tokens to allow app access") ;;
            perform (setInitialRoute MainApp)
        else perform (setInitialRoute Login))
       (fun e =>
          perform (consoleApp Failure "[App] Error checking auth state:") ;;
          perform (setInitialRoute Login)))
    (perform (setIsLoading false)).

Local Close Scope js_scope.

Inductive AuthCall : Type :=
| ReadTokens | FetchNetInfo | RefreshTokens.

(* what the device answers *)
Record Device : Type := {
  storedTokens : Error + Value;
  netInfo : Error + option bool;
  refreshed : Error + unit
}.

Record AppState : Type := {
  initialRoute : Route;
  isLoading : bool;
  routeUpdates : list Route;
  authCalls : list AuthCall;
  appLogs : list (Level * string)
}.

Definition handleAuth (dev : Device) {R} (e : AuthE R) (s : AppState)
  : AppState * R :=
  let called c :=
    {| initialRoute := initialRoute s; isLoading := isLoading s;
       routeUpdates := routeUpdates s; authCalls := authCalls s ++ [c];
       appLogs := appLogs s |} in
  match e in AuthE R return AppState * R with
  | getAuthTokens => (called ReadTokens, storedTokens dev)
  | NetInfo_fetch => (called FetchNetInfo, netInfo dev)
  | refreshAuthTokens => (called RefreshTokens, refreshed dev)
  | setInitialRoute route =>
      ({| initialRoute := route; isLoading := isLoading s;
          routeUpdates := routeUpdates s ++ [route]; authCalls := authCalls s;
          appLogs := appLogs s |}, tt)
  | setIsLoading value =>
      ({| initialRoute := initialRoute s; isLoading := value;
          routeUpdates := routeUpdates s; authCalls := authCalls s;
          appLogs := appLogs s |}, tt)
  | consoleApp level text =>
      ({| initialRoute := initialRoute s; isLoading := isLoading s;
          routeUpdates := routeUpdates s; authCalls := authCalls s;
          appLogs := appLogs s ++ [(level, text)] |}, tt)
  end.

(* useState(true), useState('Login') *)
Definition starting : AppState :=
  {| initialRoute := Login; isLoading := true; routeUpdates := [];
     authCalls := []; appLogs := [] |}.

(* the stored tokens let the user in *)
Definition hasIdToken (dev : Device) : bool :=
  match storedTokens dev with
  | inr tokens => truthy (optionalGet tokens "idToken")
  | inl _ => false
  end.

Definition sessionExpired (dev : Device) : bool :=
  match refreshed dev with
  | inl e => includes (messageOrEmpty e) "SESSION_EXPIRED"
  | inr _ => false
  end.

(** *** Running the further programs *)

Definition runBadge (queue : Error + Value) {A} (p : prog BadgeE A) (b : Badge)
  : Badge * A :=
  interp (fun R (e : BadgeE R) => handleBadge queue e) p b.

Definition runHook {Fs} (impl : Rnfs Fs) {A} (p : prog HookE A) (h : Hook Fs)
  : Hook Fs * A :=
  interp (fun R (e : HookE R) => handleHook impl e) p h.

Definition runAuth (dev : Device) {A} (p : prog AuthE A) (s : AppState)
  : AppState * A :=
  interp (fun R (e : AuthE R) => handleAuth dev e) p s.

Definition withDisk {Fs} (d : Disk Fs) (h : Hook Fs) : Hook Fs :=
  Build_Hook d (exporting h) (exportingUpdates h) (alerts h) (shared h)
             (shareOutcome h) (hookLogs h).

(* the alert [handleExport] raises for an export result, given what the
   second look at the file answers *)
Definition alertFor {Fs} (impl : Rnfs Fs)
  (exported : Disk Fs * (Error + ExportPendingFormsStatus)) : Alert :=
  match snd exported with
  | inr StatusEmpty => noFormsAlert
  | inr (StatusSuccess filePath fileName _) =>
      match fst (fsExists impl filePath (files (fst exported))) with
      | inr true => successAlert fileName
      | _ => errorAlert
      end
  | inr (StatusError _) | inl _ => errorAlert
  end.

(* where the start-up check sends the user *)
Definition routeFor (dev : Device) : Route :=
  if hasIdToken dev then
    match netInfo dev with
    | inl _ => Login
    | inr (Some true) => if sessionExpired dev then Login else MainApp
    | inr _ => MainApp
    end
  else Login.

Definition writesOf (calls : list FsCall) : list FsCall :=
  filter isWriteFile calls.

(* what one attempt adds to the call log *)
Definition attemptLog (fileName payload directory : string)
  (succeeded : bool) (made : list FsCall) : Prop :=
  (List.length made <= 4)%nat
  /\ (List.length (writesOf made) <= 1)%nat
  /\ (forall path contents, In (WriteFile path contents) made -> contents = payload)
  /\ (succeeded = true ->
      exists before,
        made = (before ++ [WriteFile (directory ++ "/" ++ fileName) payload;
                           Exists (directory ++ "/" ++ fileName)])%list).

Unset Implicit Arguments.

(** * Properties *)

(** ** The builtins on samples *)

Example Number_of_strings :
  StringToNumber "12" = Dec 12 0
  /\ StringToNumber " -3.50e1 " = Dec (-350) (-1)
  /\ StringToNumber "" = Dec 0 0
  /\ StringToNumber "0x1F" = Dec 31 0
  /\ StringToNumber "abc" = NaN
  /\ StringToNumber "1e400" = Infinity false.
Proof. vm_compute. repeat split. Qed.

Example Number_of_values :
  ToNumber (JBool true) = Dec 1 0
  /\ ToNumber (JArr []) = Dec 0 0
  /\ ToNumber (JArr [num 5]) = Dec 5 0
  /\ ToNumber (JObj []) = NaN
  /\ ToNumber undefined = NaN.
Proof. vm_compute. repeat split. Qed.

Example String_of_values :
  ToString (num 1200) = "1200"
  /\ ToString (JNum (Dec (-25) (-1))) = "-2.5"
  /\ ToString (JNum (Dec 1 21)) = "1e+21"
  /\ ToString (JNum (Dec 123 (-9))) = "1.23e-7"
  /\ ToString (JArr [num 1; null; JStr "a"; JArr []]) = "1,,a,"
  /\ ToString (JArr []) = ""
  /\ ToString (JObj [("id", num 1)]) = "[object Object]".
Proof. vm_compute. repeat split. Qed.

Example normalizeErpSystems_sample :
  normalizeErpSystems freshPayload = [freshCSA]
  /\ normalizeErpSystems (JArr [JObj [("key", JStr "k"); ("title", JStr "T");
                                     ("forms_count", JStr "7")]])
     = [{| id := "k"; name := "T"; formCount := Dec 7 0 |}]
  /\ normalizeErpSystems (JObj [("data", JObj [("data", JArr [JObj [("name", JStr "CSA")]])])])
     = [{| id := "CSA"; name := "CSA"; formCount := Dec 0 0 |}]
  /\ normalizeErpSystems null = []
  /\ normalizeErpSystems (JObj [("data", JArr [JStr "x"; null; JObj [("id", JStr "1")]])]) = [].
Proof. vm_compute. repeat split. Qed.

(** ** Normalization *)

Lemma normalizeErpSystems_unfold (raw : Value) :
  normalizeErpSystems raw =
  if truthy raw then filterBoolean (map mapToErpSystem (extractList raw)) else [].
Proof. unfold normalizeErpSystems. now destruct (truthy raw). Qed.

(* The loop tests the candidates in the order data, data.data, raw. *)
Lemma extractList_loop_order (raw : Value) :
  extractList raw =
  match optionalData raw with
  | JArr l => l
  | d => if truthy d && isArray (get d "data")
         then match get d "data" with JArr l => l | _ => [] end
         else match raw with
              | JArr l => l
              | _ => if truthy raw && isArray (get raw "data")
                     then match get raw "data" with JArr l => l | _ => [] end
                     else []
              end
  end.
Proof.
  unfold extractList, firstCandidate, candidateList.
  destruct (optionalData raw) as [| |b|n|s|items|fields] eqn:Hd;
    destruct raw; cbn [isArray truthy andb get].
  all: repeat match goal with
         | |- context [if ?c then _ else _] => destruct c eqn:?
         | |- context [match ?v with JArr _ => _ | _ => _ end] =>
             destruct v eqn:?
         end; try reflexivity; try discriminate; try congruence.
  all: unfold optionalData in Hd; cbn in Hd; congruence.
Qed.

(** C4. For every payload the list the loop selects is the one found in
    the order: [raw.data] when it is an array, else [raw] when it is an
    array, else [raw.data.data] when it is an array, else the empty list.
    (The loop itself looks at [data], [data.data], [raw]; on decoded
    payloads an array carries no [data] member, so the two orders select
    the same list.) *)
Theorem extractList_priority_order (raw : Value) :
  extractList raw = candidateListInSpecOrder raw
  /\ normalizeErpSystems raw =
     filterBoolean (map mapToErpSystem (candidateListInSpecOrder raw)).
Proof.
  assert (H : extractList raw = candidateListInSpecOrder raw).
  { rewrite extractList_loop_order. unfold candidateListInSpecOrder, optionalData.
    destruct raw as [| |b|n|s|items|fields]; cbn [nullish get isArray truthy andb];
      try reflexivity.
    - destruct b; reflexivity.
    - destruct (negb (isZero n) && match n with NaN => false | _ => true end);
        reflexivity.
    - destruct (negb (s =? "")%string); reflexivity.
    - destruct (lookup fields "data") as [| |b|n|s|items|inner];
        cbn [nullish get isArray truthy andb]; try reflexivity.
      + destruct b; reflexivity.
      + destruct (negb (isZero n) && match n with NaN => false | _ => true end);
          reflexivity.
      + destruct (negb (s =? "")%string); reflexivity.
      + destruct (lookup inner "data"); reflexivity. }
  split; [exact H|].
  rewrite normalizeErpSystems_unfold, H.
  destruct (truthy raw) eqn:Ht; [reflexivity|].
  destruct raw as [| |b|n|s|items|fields]; cbn in Ht |- *; try reflexivity;
    discriminate.
Qed.

(** *** Printing a number never gives the empty string *)

Lemma append_nonempty_l (a b : string) : a <> "" -> (a ++ b)%string <> "".
Proof. destruct a; [congruence | discriminate]. Qed.

Lemma append_nonempty_r (a b : string) : b <> "" -> (a ++ b)%string <> "".
Proof. destruct a; cbn; [auto | discriminate]. Qed.

Lemma allZero_of_uint (d : Decimal.uint) :
  allZero d = true -> Pos.of_uint d = N0.
Proof. induction d; cbn; intros H; try discriminate; auto. Qed.

Lemma to_uint_not_allZero (p : positive) : allZero (Pos.to_uint p) = false.
Proof.
  destruct (allZero (Pos.to_uint p)) eqn:H; [|reflexivity].
  apply allZero_of_uint in H. rewrite DecimalPos.Unsigned.of_to in H. discriminate.
Qed.

Lemma string_of_uint_has_nonzero (d : Decimal.uint) :
  allZero d = false ->
  exists c, In c (list_ascii_of_string (NilEmpty.string_of_uint d))
            /\ Ascii.eqb c "0" = false.
Proof.
  induction d; cbn; intros H; try discriminate;
    try (eexists; split; [left; reflexivity | reflexivity]).
  destruct (IHd H) as (c & Hin & Hc). exists c. split; [right; exact Hin | exact Hc].
Qed.

Lemma dropZeros_nil (l : list ascii) :
  dropZeros l = [] -> forall c, In c l -> Ascii.eqb c "0" = true.
Proof.
  induction l as [|a l IH]; cbn; intros H c Hin; [contradiction|].
  destruct (Ascii.eqb a "0") eqn:Ha; [|discriminate].
  destruct Hin as [<-|Hin]; [exact Ha | exact (IH H c Hin)].
Qed.

Lemma significant_digits_nonempty (p : positive) :
  rev (dropZeros (rev (list_ascii_of_string (digitsOf (Z.pos p))))) <> [].
Proof.
  unfold digitsOf. cbn [Z.to_N N.to_uint].
  intros H. apply (f_equal (@rev ascii)) in H. rewrite rev_involutive in H.
  cbn [rev] in H.
  destruct (string_of_uint_has_nonzero _ (to_uint_not_allZero p)) as (c & Hin & Hc).
  assert (Hs : NilZero.string_of_uint (Pos.to_uint p)
               = NilEmpty.string_of_uint (Pos.to_uint p)).
  { unfold NilZero.string_of_uint.
    destruct (Pos.to_uint p) eqn:E; try reflexivity.
    now destruct (DecimalPos.Unsigned.to_uint_nonnil p). }
  rewrite Hs in H.
  rewrite (dropZeros_nil _ H c) in Hc; [discriminate|].
  apply in_rev. rewrite rev_involutive. exact Hin.
Qed.

Lemma string_of_list_ascii_nonempty (l : list ascii) :
  l <> [] -> string_of_list_ascii l <> "".
Proof. destruct l; [congruence | discriminate]. Qed.

Lemma positiveToString_nonempty (p : positive) (e : Z) :
  positiveToString (Z.pos p) e <> "".
Proof.
  unfold positiveToString.
  pose proof (string_of_list_ascii_nonempty _ (significant_digits_nonempty p)) as Hs.
  repeat match goal with
         | |- context [if ?c then _ else _] => destruct c
         end.
  all: first [ apply append_nonempty_l; exact Hs
             | apply append_nonempty_r; cbn; discriminate
             | cbn; discriminate ].
Qed.

Lemma NumberToString_nonempty (n : Number) : NumberToString n <> "".
Proof.
  destruct n as [|[]|m e]; cbn; try discriminate.
  destruct m as [|p|p]; cbn; try discriminate.
  apply positiveToString_nonempty.
Qed.

(** *** Which items are kept *)

Lemma mapToErpSystem_None (item : Value) :
  mapToErpSystem item = None <-> unusable item = true.
Proof.
  unfold mapToErpSystem, unusable.
  destruct (negb (truthy item) || negb (typeofObject item)); cbn [orb].
  - split; reflexivity.
  - destruct (negb (truthy (resolveId item)) || negb (truthy (resolveName item)));
      split; intros H; try reflexivity; discriminate.
Qed.

Lemma mapToErpSystem_Some (item : Value) (e : ErpSystem) :
  mapToErpSystem item = Some e ->
  truthy (resolveId item) = true /\ truthy (resolveName item) = true
  /\ id e = ToString (resolveId item)
  /\ name e = ToString (resolveName item)
  /\ formCount e = (if isFinite (ToNumber (resolveFormCount item))
                    then ToNumber (resolveFormCount item) else Dec 0 0).
Proof.
  unfold mapToErpSystem.
  destruct (negb (truthy item) || negb (typeofObject item)); [discriminate|].
  destruct (truthy (resolveId item)), (truthy (resolveName item));
    cbn; intros H; try discriminate.
  injection H as <-. cbn. repeat split; reflexivity.
Qed.

Lemma truthy_ToString_nonempty (v : Value) :
  truthy v = true -> isArray v = false -> ToString v <> "".
Proof.
  destruct v as [| |b|n|s|items|fields]; cbn; intros Ht Ha; try discriminate.
  - destruct b; discriminate.
  - apply NumberToString_nonempty.
  - destruct (String.eqb_spec s ""); [discriminate | assumption].
Qed.

Lemma survivors_app (a b : list Value) :
  (survivors (a ++ b) = survivors a ++ survivors b)%list.
Proof.
  unfold survivors. induction a as [|x a IH]; cbn; [reflexivity|].
  destruct (mapToErpSystem x); cbn; now rewrite IH.
Qed.

Lemma survivors_length (items : list Value) :
  (List.length (survivors items) <= List.length items)%nat.
Proof.
  unfold survivors. induction items as [|x items IH]; cbn; [lia|].
  destruct (mapToErpSystem x); cbn; lia.
Qed.

(** C6 (as amended). [normalizeErpSystems] keeps, in order, the records of
    the candidate items; an item is dropped exactly when it is not an
    object or its resolved id or name is falsy before the coercion (an
    absent or empty value, but also 0 or false).  Every record has both
    fields set to the coerced values, which are non-empty unless the value
    was an array; the output is no longer than the input, distributes over
    concatenation (order is kept) and keeps duplicates. *)
Theorem normalize_drops_unusable_items :
  (forall raw, normalizeErpSystems raw =
               if truthy raw then survivors (extractList raw) else [])
  /\ (forall item, mapToErpSystem item = None <-> unusable item = true)
  /\ (forall item e, mapToErpSystem item = Some e ->
        id e = ToString (resolveId item)
        /\ name e = ToString (resolveName item)
        /\ (isArray (resolveId item) = false -> id e <> "")
        /\ (isArray (resolveName item) = false -> name e <> ""))
  /\ (forall items, (List.length (survivors items) <= List.length items)%nat)
  /\ (forall a b, (survivors (a ++ b) = survivors a ++ survivors b)%list)
  /\ (forall item, survivors [item] =
                   match mapToErpSystem item with Some e => [e] | None => [] end)
  /\ (forall item e, mapToErpSystem item = Some e ->
                     survivors [item; item] = [e; e]).
Proof.
  split; [exact normalizeErpSystems_unfold|].
  split; [exact mapToErpSystem_None|].
  split.
  { intros item e H. destruct (mapToErpSystem_Some item e H) as (Hi & Hn & -> & -> & _).
    repeat split; auto using truthy_ToString_nonempty. }
  split; [exact survivors_length|].
  split; [exact survivors_app|].
  split.
  - intros item. unfold survivors. cbn. now destruct (mapToErpSystem item).
  - intros item e H. unfold survivors. cbn. now rewrite H.
Qed.

Lemma normalize_drops_unusable_items_witness :
  let item := JObj [("ID", num 7); ("title", JStr "Stock")] in
  let e := {| id := "7"; name := "Stock"; formCount := Dec 0 0 |} in
  mapToErpSystem item = Some e /\ id e <> "" /\ name e <> ""
  /\ survivors [item; item] = [e; e].
Proof.
  intros item e.
  destruct normalize_drops_unusable_items as (_ & _ & Hkept & _ & _ & _ & Hdup).
  destruct (Hkept item e eq_refl) as (_ & _ & Hid & Hname).
  split; [reflexivity|].
  split; [exact (Hid eq_refl)|].
  split; [exact (Hname eq_refl) | exact (Hdup item e eq_refl)].
Defined.

(** C6 as first stated fails in both directions: an item whose id is the
    number 0 is dropped although the id coerces to the non-empty "0", and
    an item whose id is an empty array is kept with the empty id. *)
Lemma drop_iff_coerced_empty_counterexample :
  let zeroId := JObj [("id", num 0); ("name", JStr "A")] in
  let arrayId := JObj [("id", JArr []); ("name", JStr "A")] in
  (mapToErpSystem zeroId = None
   /\ ToString (resolveId zeroId) = "0"
   /\ ToString (resolveName zeroId) = "A"
   /\ normalizeErpSystems (JArr [zeroId]) = [])
  /\ normalizeErpSystems (JArr [arrayId])
     = [{| id := ""; name := "A"; formCount := Dec 0 0 |}].
Proof. cbv. repeat split. Qed.

(** *** formCount *)

Lemma resolveFormCount_firstPresent (item : Value) :
  resolveFormCount item = firstPresent item formCountKeys (num 0).
Proof.
  unfold resolveFormCount, formCountKeys, firstPresent, coalesce.
  destruct (nullish (get item "formCount")) eqn:H1;
    destruct (nullish (get item "form_count")) eqn:H2;
    destruct (nullish (get item "formsCount")) eqn:H3;
    destruct (nullish (get item "forms_count")) eqn:H4;
    rewrite ?H1, ?H2, ?H3, ?H4; reflexivity.
Qed.

(** C7 (as amended). The formCount of a kept item is a finite number: the
    first non-nullish value among formCount, form_count, formsCount,
    forms_count (0 when all are absent), converted with Number and replaced
    by 0 when the conversion is not finite.  Nothing clamps or truncates
    it: it is a non-negative integer exactly when the converted value is
    one or is not finite. *)
Theorem formCount_is_finite_number (item : Value) (e : ErpSystem) :
  mapToErpSystem item = Some e ->
  let value := firstPresent item formCountKeys (num 0) in
  formCount e = (if isFinite (ToNumber value) then ToNumber value else Dec 0 0)
  /\ isFinite (formCount e) = true
  /\ isNonNegativeInteger (formCount e)
     = (isNonNegativeInteger (ToNumber value) || negb (isFinite (ToNumber value))).
Proof.
  intros H value. destruct (mapToErpSystem_Some item e H) as (_ & _ & _ & _ & Hf).
  rewrite resolveFormCount_firstPresent in Hf. fold value in Hf. rewrite Hf.
  destruct (ToNumber value) as [|neg|m x]; cbn [isFinite]; repeat split;
    cbn; try reflexivity.
  now rewrite orb_false_r.
Qed.

Lemma formCount_is_finite_number_witness :
  let item := JObj [("id", JStr "1"); ("name", JStr "CSA"); ("forms_count", JStr "12")] in
  let e := {| id := "1"; name := "CSA"; formCount := Dec 12 0 |} in
  mapToErpSystem item = Some e
  /\ isFinite (formCount e) = true
  /\ isNonNegativeInteger (formCount e) = true.
Proof.
  intros item e. split; [reflexivity|].
  destruct (formCount_is_finite_number item e eq_refl) as (_ & Hfin & Hint).
  split; [exact Hfin | rewrite Hint; reflexivity].
Defined.

(** C7 as first stated fails: a negative count and a fractional count are
    both kept as they are. *)
Lemma formCount_negative_counterexample :
  let item := JObj [("id", JStr "1"); ("name", JStr "CSA"); ("formCount", num (-3))] in
  let half := JObj [("id", JStr "2"); ("name", JStr "CSA"); ("formCount", JStr "2.5")] in
  normalizeErpSystems (JArr [item; half])
  = [{| id := "1"; name := "CSA"; formCount := Dec (-3) 0 |};
     {| id := "2"; name := "CSA"; formCount := Dec 25 (-1) |}]
  /\ isNonNegativeInteger (Dec (-3) 0) = false
  /\ isNonNegativeInteger (Dec 25 (-1)) = false.
Proof. cbv. repeat split. Qed.

(** ** Reconciliation *)

Arguments normalizeErpSystems : simpl never.
Arguments is401Error : simpl never.

(* Run the program as far as the known facts allow, splitting on the
   cleanup schedule where the code tests [cancelled]. *)
Ltac unfold_screens :=
  unfold reconcile, loadErpSystemsOf, Retrying.loadErpSystems,
    CacheOnly.loadErpSystems, Retrying.refreshAndRetry,
    Retrying.fallbackAfterRetry, Retrying.fallbackNon401,
    CacheOnly.fallbackToCache, readCache, stopLoading, after, settled,
    mounted, fresh.

Ltac use_facts :=
  repeat match goal with
         | H : network ?e ?n = _ |- context [network ?e ?n] => rewrite H
         | H : refresh ?e = _ |- context [refresh ?e] => rewrite H
         | H : is401Error ?e = _ |- context [is401Error ?e] => rewrite H
         | H : tokenTruthy ?t = _ |- context [tokenTruthy ?t] => rewrite H
         | H : writeRefused ?e = _ |- context [writeRefused ?e] => rewrite H
         | H : isOffline ?c = _ |- context [isOffline ?c] => rewrite H
         | H : normalizeErpSystems ?r = _ |- context [normalizeErpSystems ?r] =>
             rewrite H
         | H : teardown ?e ?n = _ |- context [teardown ?e ?n] => rewrite H
         | H : forall n, teardown ?e n = _ |- context [teardown ?e ?n] =>
             rewrite (H n)
         end.





Ltac reduce :=
  lazy -[normalizeErpSystems is401Error tokenTruthy isOffline
         teardown network refresh writeRefused withWriteRefused].

Ltac exec_using simp :=
  repeat (reduce; simp; use_facts;
          try match goal with
              | |- context [teardown ?e ?n] => destruct (teardown e n) eqn:?
              | |- context [writeRefused ?e] => destruct (writeRefused e) eqn:?
              end).

Ltac exec := exec_using idtac.


(* Name the outcome of a run and compute it once. *)
Ltac expose o :=
  let E := fresh "E" in
  assert (E : o = o) by reflexivity;
  unfold o at 2 in E; clearbody o; revert E.

Ltac evaluate := unfold_screens; exec; intros; subst.

Ltac conclude :=
  repeat split; try reflexivity; try discriminate;
  try (intros Hn; first [ reflexivity | discriminate
                        | rewrite Hn in *; discriminate ]).

(** C8. Offline, neither screen calls the remote fetch, whatever the cache
    holds and whenever the view is torn down: the run reads the cache once,
    settles without an error and leaves the cache as it was.  While the
    view is live it shows a non-empty snapshot and otherwise leaves the
    list as it is, which is the empty list on a fresh mount. *)
Theorem offline_never_fetches (screen : Screen) (env : Env) (blob : Blob)
  (shown : list ErpSystem) :
  let outcome := reconcile screen env (Some false) blob shown in
  countFetches (trace (after outcome)) = 0%nat
  /\ ~ In Fetch (trace (after outcome))
  /\ settled outcome = inr tt
  /\ store (after outcome) = blob
  /\ (teardown env 0 = false ->
      loading (after outcome) = false
      /\ erpSystems (after outcome)
         = match snapshotOf blob with [] => shown | systems => systems end)
  /\ (teardown env 0 = false ->
      erpSystems (after (reconcile screen env (Some false) blob [])) = snapshotOf blob).
Proof.
  intros outcome. expose outcome.
  assert (Hoff : isOffline (Some false) = true) by reflexivity.
  destruct screen, blob as [| |[|x systems]]; evaluate;
    repeat split; try reflexivity; try discriminate;
    cbn; intuition discriminate.
Qed.

Lemma offline_never_fetches_witness :
  let outcome :=
    reconcile FirstScreen (answering (inr freshPayload) false never) (Some false)
      (Snapshot [cachedCSA]) [] in
  ~ In Fetch (trace (after outcome))
  /\ store (after outcome) = Snapshot [cachedCSA]
  /\ erpSystems (after outcome) = [cachedCSA].
Proof.
  destruct (offline_never_fetches FirstScreen
              (answering (inr freshPayload) false never) (Snapshot [cachedCSA]) [])
    as (_ & Hno & _ & Hstore & Hlive & _).
  split; [exact Hno|].
  split; [exact Hstore | exact (proj2 (Hlive eq_refl))].
Defined.

(** C1. When the remote fetch of a run fails (any error on the second
    screen; on the first screen an error that is not a 401, or a 401 after
    which the refresh yields no token or rejects or the repeated call
    rejects), no cache write is made and the cache holds what it held
    before, the run settles without an error, and a live view ends up
    showing the snapshot, or the empty list when there is none. *)
Theorem failed_fetch_keeps_cache (screen : Screen) (env : Env)
  (isConnected : option bool) (blob : Blob) (shown : list ErpSystem) :
  isOffline isConnected = false ->
  fetchFails screen env = true ->
  let outcome := reconcile screen env isConnected blob shown in
  store (after outcome) = blob
  /\ cacheWrites (trace (after outcome)) = []
  /\ settled outcome = inr tt
  /\ ((forall n, teardown env n = false) ->
      erpSystems (after outcome) = snapshotOf blob).
Proof.
  intros Hon Hfail outcome. expose outcome. unfold fetchFails, fetched in Hfail.
  destruct (network env 0) as [error|] eqn:N0; [|discriminate].
  destruct screen.
  - destruct (is401Error error) eqn:H401.
    + destruct (refresh env) as [|token] eqn:Href;
        [|destruct (tokenTruthy token) eqn:Htok;
          [destruct (network env 1) as [error1|] eqn:N1; [|discriminate]|]];
        destruct blob as [| |[|x systems]]; evaluate; conclude.
    + destruct blob as [| |[|x systems]]; evaluate; conclude.
  - destruct blob as [| |[|x systems]]; evaluate; conclude.
Qed.

Lemma failed_fetch_keeps_cache_witness :
  let outcome :=
    reconcile FirstScreen (answering (inl serverDown) false never) (Some true)
      (Snapshot [cachedCSA]) [] in
  store (after outcome) = Snapshot [cachedCSA]
  /\ erpSystems (after outcome) = [cachedCSA].
Proof.
  destruct (failed_fetch_keeps_cache FirstScreen
              (answering (inl serverDown) false never) (Some true)
              (Snapshot [cachedCSA]) [] eq_refl eq_refl)
    as (Hstore & _ & _ & Hshown).
  split; [exact Hstore | exact (Hshown (fun _ => eq_refl))].
Defined.










(* What the first screen's catch block would do with a storage whose save
   rejects: the write failure is taken for a fetch failure and the list
   goes back to the cached one. *)
Lemma rejecting_save_would_regress :
  let outcome :=
    run rejectingStorage (answering (inr freshPayload) true never)
      (Retrying.loadErpSystems (Some true)) (mounted (Snapshot [cachedCSA]) []) fresh in
  settled outcome = inr tt
  /\ In (SetErpSystems [freshCSA] false) (trace (after outcome))
  /\ erpSystems (after outcome) = [cachedCSA].
Proof. vm_compute. repeat split. auto 10. Qed.

(** *** Classifying a failure *)

Lemma is401Error_signals (error : Error) :
  is401Error error = true <->
  strictEqualsInt (get (response error) "status") 401 = true
  \/ (exists v, status error = Some v /\ strictEqualsInt v 401 = true)
  \/ strictEqualsInt (statusCode error) 401 = true
  \/ (exists m, message error = Some m
                /\ (includes m "401" = true \/ includes m "Unauthorized" = true)).
Proof.
  unfold is401Error.
  assert (Hr : (if nullish (response error) then undefined
                else get (response error) "status")
               = get (response error) "status")
    by (destruct (response error); reflexivity).
  rewrite Hr. rewrite !orb_true_iff. split.
  - intros [[[[[H|H]|H]|H]|H]|H]; auto.
    + destruct (status error) as [v|]; [eauto 8 | discriminate].
    + destruct (status error) as [v|]; [eauto 8 | discriminate].
    + destruct (message error) as [m|]; [eauto 10 | discriminate].
    + destruct (message error) as [m|]; [eauto 10 | discriminate].
  - intros [H|[(v & -> & H)|[H|(m & -> & [H|H])]]]; auto 7.
Qed.

(** *** Teardown *)

(** C3 (the code at the failing input).  When the view is torn down before
    the fetch settles, the first screen skips the list update but still
    writes the fetched list to the cache; the second screen, whose write
    sits behind the [cancelled] test, leaves the cache alone. *)
Theorem torn_down_run_still_writes_cache (env : Env)
  (isConnected : option bool) (blob : Blob) (shown : list ErpSystem)
  (raw : Value) :
  isOffline isConnected = false ->
  network env 0 = inr raw ->
  teardown env 0 || teardown env 1 = true ->
  let first := reconcile FirstScreen env isConnected blob shown in
  let second := reconcile SecondScreen env isConnected blob shown in
  cancelled (flags first) = true
  /\ cacheWrites (trace (after first)) = [normalizeErpSystems raw]
  /\ (writeRefused env = false ->
      store (after first) = Snapshot (normalizeErpSystems raw))
  /\ ~ In (SetErpSystems (normalizeErpSystems raw) true) (trace (after first))
  /\ cancelled (flags second) = true
  /\ cacheWrites (trace (after second)) = []
  /\ store (after second) = blob.
Proof.
  intros Hon N0 Htorn first second. expose first. expose second.
  destruct (normalizeErpSystems raw) as [|e fresh'] eqn:Hnorm;
    destruct blob as [| |[|x systems]];
    destruct (teardown env 0) eqn:T0;
    try (destruct (teardown env 1) eqn:T1; [|discriminate Htorn]);
    evaluate; unfold flags;
    repeat match goal with |- _ /\ _ => split end;
    try reflexivity; try discriminate;
    cbn; intuition discriminate.
Qed.

Lemma torn_down_run_still_writes_cache_witness :
  let first :=
    reconcile FirstScreen (answering (inr freshPayload) false (Nat.eqb 1))
      (Some true) (Snapshot [cachedCSA]) [cachedCSA] in
  cancelled (flags first) = true
  /\ store (after first) = Snapshot [freshCSA].
Proof.
  destruct (torn_down_run_still_writes_cache
              (answering (inr freshPayload) false (Nat.eqb 1)) (Some true)
              (Snapshot [cachedCSA]) [cachedCSA] freshPayload
              eq_refl eq_refl eq_refl) as (Hc & _ & Hstore & _).
  split; [exact Hc | exact (Hstore eq_refl)].
Defined.

(* Two runs of the first screen on one event loop.  The older run has its
   answer (the stale payload) when the effect is cleaned up and re-run; the
   newer run fetches, shows and caches the fresh payload; the older run
   then resumes, skips the list update and overwrites the cache with the
   stale list. *)
Lemma stale_write_overwrites_newer :
  let older := task (answering (inr stalePayload) false never)
                    (Retrying.loadErpSystems (Some true)) in
  let newer := task (answering (inr freshPayload) false never)
                    (Retrying.loadErpSystems (Some true)) in
  let turns := [Older; Older; Cleanup; Newer; Newer; Newer; Newer; Older; Older] in
  let '(s, older', newer') :=
    interleave erpStorage turns older newer (mounted Absent []) in
  code older' = Ret (inr tt)
  /\ code newer' = Ret (inr tt)
  /\ cancelled (local older') = true
  /\ cacheWrites (trace s) = [[freshCSA]; [cachedCSA]]
  /\ erpSystems s = [freshCSA]
  /\ store s = Snapshot [cachedCSA].
Proof. vm_compute. repeat split. Qed.

(* The same schedule on the second screen: the older run writes nothing. *)
Lemma guarded_write_keeps_newer :
  let older := task (answering (inr stalePayload) false never)
                    (CacheOnly.loadErpSystems (Some true)) in
  let newer := task (answering (inr freshPayload) false never)
                    (CacheOnly.loadErpSystems (Some true)) in
  let turns := [Older; Older; Cleanup; Newer; Newer; Newer; Newer; Older; Older] in
  let '(s, older', newer') :=
    interleave erpStorage turns older newer (mounted Absent []) in
  code older' = Ret (inr tt)
  /\ code newer' = Ret (inr tt)
  /\ cacheWrites (trace s) = [[freshCSA]]
  /\ erpSystems s = [freshCSA]
  /\ store s = Snapshot [freshCSA].
Proof. vm_compute. repeat split. Qed.

(* On both screens the list is still set after a teardown that happens
   while the fallback re-reads the cache: [cancelled] is not tested again
   after that await. *)
Lemma fallback_sets_list_after_teardown (screen : Screen) :
  let outcome :=
    reconcile screen (answering (inl serverDown) false (Nat.eqb 2)) (Some true)
      Absent [cachedCSA] in
  cancelled (flags outcome) = true
  /\ In (SetErpSystems [] true) (trace (after outcome))
  /\ erpSystems (after outcome) = [].
Proof. destruct screen; vm_compute; repeat split; auto 10. Qed.

(** ** Export *)

Lemma runFs_bind {Fs} (impl : Rnfs Fs) {A B} (p : prog FsE A)
  (f : A -> prog FsE B) (d : Disk Fs) :
  runFs impl (bind p f) d
  = let (d1, a) := runFs impl p d in runFs impl (f a) d1.
Proof.
  revert d. induction p as [a|R e k IH]; intros d; cbn; [reflexivity|].
  destruct (handleFs impl e d) as [d1 r]. apply IH.
Qed.

Lemma tryDirectories_step {Fs} (impl : Rnfs Fs) (fileName payload directory : string)
  (rest : list string) (last : option Error) (d : Disk Fs) :
  runFs impl (tryDirectories fileName payload (directory :: rest) last) d
  = match attempt impl fileName payload directory d with
    | (d1, inl error) =>
        runFs impl (tryDirectories fileName payload rest (Some error))
          (noteFailure "[Export] Failed to write to" d1)
    | (d1, inr st) => (d1, inr st)
    end.
Proof.
  cbn [tryDirectories]. unfold tryCatch, attempt. rewrite runFs_bind.
  destruct (runFs impl (writeTo fileName payload directory) d) as [d1 [error|st]];
    reflexivity.
Qed.

(* What one attempt can do: it succeeds only with the path inside its own
   directory, and it calls RNFS on that directory and that file only. *)
Lemma attempt_spec {Fs} (impl : Rnfs Fs) (fileName payload directory : string)
  (d : Disk Fs) :
  let (d1, r) := attempt impl fileName payload directory d in
  onlyTouched fileName [directory] d d1
  /\ pending d1 = pending d
  /\ match r with
     | inr st => st = StatusSuccess (directory ++ "/" ++ fileName) fileName directory
                 /\ In (WriteFile (directory ++ "/" ++ fileName) payload) (calls d1)
     | inl _ => True
     end.
Proof.
  unfold attempt, writeTo, onlyTouched, when, bindM, call, perform, ret, throw.
  cbn [bind runFs handleFs].
  repeat match goal with
         | |- context [fsExists impl ?p ?f] =>
             destruct (fsExists impl p f) as [[?|[]] ?]; cbn
         | |- context [fsMkdir impl ?p ?f] =>
             destruct (fsMkdir impl p f) as [[?|[]] ?]; cbn
         | |- context [fsWriteFile impl ?p ?c ?f] =>
             destruct (fsWriteFile impl p c f) as [[?|[]] ?]; cbn
         end.
  all: repeat match goal with |- _ /\ _ => split end; try reflexivity.
  all: try (eexists; split;
            [ rewrite <- ?app_assoc; reflexivity
            | cbn [app];
              repeat (apply Forall_cons || apply Forall_nil);
              cbn; rewrite ?String.eqb_refl, ?orb_true_r; reflexivity ]).
  all: rewrite !in_app_iff; cbn; auto.
Qed.

Section Loop.
Context {Fs : Type} (impl : Rnfs Fs) (fileName payload : string).

Lemma attempt_success (directory : string) (d d1 : Disk Fs)
  (st : ExportPendingFormsStatus) :
  attempt impl fileName payload directory d = (d1, inr st) ->
  st = StatusSuccess (directory ++ "/" ++ fileName) fileName directory.
Proof.
  intros H. pose proof (attempt_spec impl fileName payload directory d) as S.
  rewrite H in S. apply S.
Qed.



Lemma error_only_when_all_fail (directories : list string) :
  forall (d d' : Disk Fs) (last cause : option Error),
    runFs impl (tryDirectories fileName payload directories last) d
    = (d', inr (StatusError cause)) ->
    exists d1, allFail impl fileName payload directories d last = Some (d1, cause)
               /\ d' = noteFailure "[Export] All directory attempts failed:" d1.
Proof.
  induction directories as [|directory rest IH]; intros d d' last cause H.
  - cbn in H. injection H as <- <-. exists d. split; reflexivity.
  - rewrite tryDirectories_step in H. cbn [allFail].
    destruct (attempt impl fileName payload directory d) as [d0 [error|st]] eqn:A.
    + now apply IH.
    + apply attempt_success in A. subst st. discriminate.
Qed.



Lemma allFail_last (init : list string) :
  forall (lastDirectory : string) (d d1 : Disk Fs) (last cause : option Error),
    allFail impl fileName payload (init ++ [lastDirectory]) d last = Some (d1, cause) ->
    exists d0 before d0' error,
      allFail impl fileName payload init d last = Some (d0, before)
      /\ attempt impl fileName payload lastDirectory d0 = (d0', inl error)
      /\ cause = Some error.
Proof.
  induction init as [|p init IH]; intros lastDirectory d d1 last cause H.
  - cbn [app allFail] in H.
    destruct (attempt impl fileName payload lastDirectory d) as [d0 [error|st]] eqn:A;
      [|discriminate].
    injection H as _ <-. exists d, last, d0, error. repeat split; assumption.
  - cbn [app allFail] in H |- *.
    destruct (attempt impl fileName payload p d) as [d0 [error|st]];
      [|discriminate].
    eapply IH. exact H.
Qed.
End Loop.




(** * Further properties of the same files *)

(** ** Normalization *)

Lemma normalize_array (items : list Value) :
  normalizeErpSystems (JArr items) = survivors items.
Proof. reflexivity. Qed.

Lemma mapToErpSystem_encode (e : ErpSystem) :
  wellFormed e = true -> mapToErpSystem (encode e) = Some e.
Proof.
  destruct e as [i n c]. unfold wellFormed. cbn [id name formCount].
  intros H. apply andb_prop in H. destruct H as (H & Hc).
  apply andb_prop in H. destruct H as (Hi & Hn).
  unfold mapToErpSystem, encode, resolveId, resolveName, resolveFormCount.
  cbn. rewrite Hi, Hn. cbn. now rewrite Hc.
Qed.

Lemma survivors_encode (systems : list ErpSystem) :
  forallb wellFormed systems = true -> survivors (map encode systems) = systems.
Proof.
  unfold survivors. induction systems as [|e systems IH];
    cbn [map forallb filterBoolean]; [reflexivity|].
  intros H. apply andb_prop in H. destruct H as (He & Hs).
  rewrite (mapToErpSystem_encode e He). cbn [filterBoolean]. now rewrite IH.
Qed.

(** X1. Records that are already normalized (non-empty id and name, finite
    formCount) come back unchanged, in order, when their JSON form is
    normalized again, whether the array arrives bare, under [data] or
    under [data.data]. *)
Theorem normalize_encoded_roundtrip (systems : list ErpSystem) :
  forallb wellFormed systems = true ->
  normalizeErpSystems (JArr (map encode systems)) = systems
  /\ normalizeErpSystems (JObj [("data", JArr (map encode systems))]) = systems
  /\ normalizeErpSystems
       (JObj [("data", JObj [("data", JArr (map encode systems))])]) = systems.
Proof.
  intros H.
  change (normalizeErpSystems (JObj [("data", JArr (map encode systems))]))
    with (survivors (map encode systems)).
  change (normalizeErpSystems
            (JObj [("data", JObj [("data", JArr (map encode systems))])]))
    with (survivors (map encode systems)).
  rewrite normalize_array, (survivors_encode systems H). repeat split.
Qed.

Lemma normalize_encoded_roundtrip_witness :
  normalizeErpSystems (JObj [("data", JArr (map encode [cachedCSA; freshCSA]))])
  = [cachedCSA; freshCSA].
Proof.
  exact (proj1 (proj2 (normalize_encoded_roundtrip [cachedCSA; freshCSA] eq_refl))).
Defined.

(** X2. The aliases are joined with [??]: an [id] that is present but falsy
    (the empty string, 0, false) is not skipped, so the item is dropped even
    when [ID], [key], [name] or [systemId] would give a usable id; the same
    holds for a present but falsy [name] and the aliases [title] and
    [systemName]. *)
Theorem falsy_id_shadows_aliases (fields : list (string * Value)) :
  (nullish (lookup fields "id") = false /\ truthy (lookup fields "id") = false)
  \/ (nullish (lookup fields "name") = false
      /\ truthy (lookup fields "name") = false) ->
  mapToErpSystem (JObj fields) = None
  /\ forall before after,
       normalizeErpSystems (JArr (before ++ JObj fields :: after))
       = normalizeErpSystems (JArr (before ++ after)).
Proof.
  intros H.
  assert (Hdrop : mapToErpSystem (JObj fields) = None).
  { apply mapToErpSystem_None. unfold unusable, resolveId, resolveName, coalesce.
    cbn [get truthy typeofObject negb orb].
    destruct H as [(Hn & Ht) | (Hn & Ht)].
    - rewrite !Hn, Ht. reflexivity.
    - rewrite !Hn, Ht. cbn. apply orb_true_r. }
  split; [exact Hdrop|].
  intros before after. rewrite !normalize_array, !survivors_app.
  change (JObj fields :: after) with ([JObj fields] ++ after)%list.
  rewrite survivors_app. f_equal. unfold survivors at 1.
  cbn [map filterBoolean]. now rewrite Hdrop.
Qed.

Lemma falsy_id_shadows_aliases_witness :
  mapToErpSystem (JObj [("id", JStr ""); ("ID", JStr "7"); ("name", JStr "Stock")])
  = None.
Proof.
  exact (proj1 (falsy_id_shadows_aliases
                  [("id", JStr ""); ("ID", JStr "7"); ("name", JStr "Stock")]
                  (or_introl (conj eq_refl eq_refl)))).
Defined.



(** X4. Records come only out of an array: when the result is not empty,
    the payload is an array, or an object whose [data] is an array, or an
    object whose [data] is an object whose [data] is an array.  Every other
    payload (null, a string, a number, an object without such a member)
    normalizes to the empty list. *)
Theorem records_only_from_arrays (raw : Value) :
  normalizeErpSystems raw <> [] ->
  (exists items, raw = JArr items /\ survivors items = normalizeErpSystems raw)
  \/ (exists fields items,
        raw = JObj fields /\ lookup fields "data" = JArr items
        /\ survivors items = normalizeErpSystems raw)
  \/ (exists fields inner items,
        raw = JObj fields /\ lookup fields "data" = JObj inner
        /\ lookup inner "data" = JArr items
        /\ survivors items = normalizeErpSystems raw).
Proof.
  rewrite normalizeErpSystems_unfold, extractList_loop_order.
  unfold optionalData. fold survivors.
  destruct raw as [| |b|n|s|items|fields]; cbn; try congruence.
  - destruct b; cbn; congruence.
  - destruct (negb (isZero n) && match n with NaN => false | _ => true end);
      cbn; congruence.
  - destruct (negb (s =? "")%string); cbn; congruence.
  - intros _. left. eauto.
  - destruct (lookup fields "data") as [| |b|n|s|items|inner] eqn:Hd;
      cbn; try congruence.
    + destruct b; cbn; congruence.
    + destruct (negb (isZero n) && match n with NaN => false | _ => true end);
        cbn; congruence.
    + destruct (negb (s =? "")%string); cbn; congruence.
    + intros _. right. left. eauto.
    + destruct (lookup inner "data") as [| |b|n|s|items|inner'] eqn:Hi;
        cbn; try congruence.
      intros _. right. right. eauto 7.
Qed.

Lemma records_only_from_arrays_witness :
  exists fields items,
    freshPayload = JObj fields /\ lookup fields "data" = JArr items
    /\ survivors items = normalizeErpSystems freshPayload.
Proof.
  destruct (records_only_from_arrays freshPayload) as [H|[H|H]].
  - discriminate.
  - destruct H as (items & H & _). discriminate H.
  - exact H.
  - destruct H as (fields & inner & items & H & Hd & _).
    injection H as <-. discriminate Hd.
Defined.

(** ** Every run of [loadErpSystems] *)

Ltac live_contradiction :=
  match goal with
  | Hn : forall n, teardown ?e n = false, H : teardown ?e _ = true |- _ =>
      rewrite Hn in H; discriminate H
  end.

Ltac settle_fact :=
  cbn;
  first [ reflexivity | lia | discriminate | (left; reflexivity)
        | (right; reflexivity)
        | (intros; first [ discriminate | live_contradiction | congruence | lia
                         | reflexivity
                         | match goal with
                           | H : Snapshot _ = Snapshot _ |- _ =>
                               injection H as <- <-; reflexivity
                           end
                         | match goal with
                           | H : ?x <> ?x |- _ => now destruct H
                           end
                         | (left; reflexivity) | (right; reflexivity) ]) ].

(* The facts below hold on every path through either screen; they are
   found by running the program on each of them. *)
Lemma reconcile_facts (screen : Screen) (env : Env) (isConnected : option bool)
  (blob : Blob) (shown : list ErpSystem) :
  let o := reconcile screen env isConnected blob shown in
  settled o = inr tt
  /\ (countFetches (trace (after o))
      <= match screen with FirstScreen => 2 | SecondScreen => 1 end)%nat
  /\ (List.length (cacheWrites (trace (after o))) <= 1)%nat
  /\ (1 <= countEvent isCacheRead (trace (after o)) <= 2)%nat
  /\ (countEvent isRefresh (trace (after o)) <= 1)%nat
  /\ (screen = SecondScreen ->
      remoteCalls (trace (after o)) = [] \/ remoteCalls (trace (after o)) = [Fetch])
  /\ ((forall n, teardown env n = false) -> loading (after o) = false)
  /\ (teardown env 0 = false ->
      forall x l, blob = Snapshot (x :: l) ->
      firstn 3 (trace (after o))
      = [SetLoading true; CacheRead; SetErpSystems (x :: l) false])
  /\ (screen = SecondScreen -> (forall n, teardown env n = false) ->
      snapshotOf blob <> [] -> erpSystems (after o) <> [])
  /\ ((forall n, teardown env n = false) -> writeRefused env = false ->
      cacheWrites (trace (after o)) <> [] ->
      store (after o) = Snapshot (erpSystems (after o))).
Proof.
  intros o. expose o.
  destruct (isOffline isConnected) eqn:Hoff;
    [destruct screen, blob as [| |[|x systems]]; evaluate;
     repeat match goal with |- _ /\ _ => split end; settle_fact|].
  destruct screen.
  - destruct (network env 0) as [error|raw0] eqn:N0;
      [destruct (is401Error error) eqn:H401;
       [destruct (refresh env) as [|token] eqn:Href;
        [|destruct (tokenTruthy token) eqn:Htok;
          [destruct (network env 1) as [error1|raw1] eqn:N1|]]|]|];
      destruct blob as [| |[|x systems]]; evaluate;
      repeat match goal with |- _ /\ _ => split end; settle_fact.
  - destruct (network env 0) as [error|raw0] eqn:N0;
      [|destruct (normalizeErpSystems raw0) as [|e fresh'] eqn:Hnorm];
      destruct blob as [| |[|x systems]]; evaluate;
      repeat match goal with |- _ /\ _ => split end; settle_fact.
Qed.


(** X6. A run whose view is not torn down always ends with [loading]
    false, on every path (offline, success, retry, fallback), so the
    spinner, shown while [loading] holds and the list is empty, is off
    when the run has settled. *)
Theorem live_run_stops_spinner (screen : Screen) (env : Env)
  (isConnected : option bool) (blob : Blob) (shown : list ErpSystem) :
  (forall n, teardown env n = false) ->
  let o := reconcile screen env isConnected blob shown in
  loading (after o) = false /\ showsSpinner (after o) = false.
Proof.
  intros Hlive o.
  assert (H : loading (after o) = false)
    by (apply (reconcile_facts screen env isConnected blob shown); exact Hlive).
  split; [exact H | unfold showsSpinner; now rewrite H].
Qed.

Lemma live_run_stops_spinner_witness :
  showsSpinner
    (after (reconcile SecondScreen (answering (inl serverDown) false never)
              (Some true) Absent [])) = false.
Proof.
  exact (proj2 (live_run_stops_spinner SecondScreen
                  (answering (inl serverDown) false never) (Some true) Absent []
                  (fun _ => eq_refl))).
Defined.

(** X7. One run reads the cache once or twice, writes it at most once,
    refreshes the token at most once and calls the remote fetch at most
    twice on the first screen and at most once on the second, which makes
    no other remote call at all. *)
Theorem calls_of_one_run_are_bounded (screen : Screen) (env : Env)
  (isConnected : option bool) (blob : Blob) (shown : list ErpSystem) :
  let calls := trace (after (reconcile screen env isConnected blob shown)) in
  (1 <= countEvent isCacheRead calls <= 2)%nat
  /\ (List.length (cacheWrites calls) <= 1)%nat
  /\ (countEvent isRefresh calls <= 1)%nat
  /\ (countFetches calls
      <= match screen with FirstScreen => 2 | SecondScreen => 1 end)%nat
  /\ (screen = SecondScreen ->
      remoteCalls calls = [] \/ remoteCalls calls = [Fetch]).
Proof.
  destruct (reconcile_facts screen env isConnected blob shown)
    as (_ & Hf & Hw & Hr & Hk & Hs & _).
  cbv zeta. repeat split; try assumption; apply Hr.
Qed.

(** X8. Cache first: when the cache holds a non-empty snapshot and the view
    is still there after the cache read, the snapshot is put on screen
    right after that read, before any remote call, whatever happens later
    in the run. *)
Theorem cached_list_shown_first (screen : Screen) (env : Env)
  (isConnected : option bool) (x : ErpSystem) (cached shown : list ErpSystem) :
  teardown env 0 = false ->
  firstn 3 (trace (after (reconcile screen env isConnected
                            (Snapshot (x :: cached)) shown)))
  = [SetLoading true; CacheRead; SetErpSystems (x :: cached) false].
Proof.
  intros H.
  destruct (reconcile_facts screen env isConnected (Snapshot (x :: cached)) shown)
    as (_ & _ & _ & _ & _ & _ & _ & Hp & _).
  exact (Hp H x cached eq_refl).
Qed.

Lemma cached_list_shown_first_witness :
  firstn 3 (trace (after (reconcile FirstScreen expiredTokenEnv (Some true)
                            (Snapshot [cachedCSA]) [])))
  = [SetLoading true; CacheRead; SetErpSystems [cachedCSA] false].
Proof.
  exact (cached_list_shown_first FirstScreen expiredTokenEnv (Some true)
           cachedCSA [] [] eq_refl).
Defined.

(** X9. On the second screen a populated cache is never replaced by an
    empty screen: when the cache holds a non-empty snapshot and the view is
    not torn down, the list on screen is not empty after the run, whatever
    the fetch answers. *)
Theorem second_screen_keeps_list_populated (env : Env)
  (isConnected : option bool) (blob : Blob) (shown : list ErpSystem) :
  (forall n, teardown env n = false) ->
  snapshotOf blob <> [] ->
  erpSystems (after (reconcile SecondScreen env isConnected blob shown)) <> [].
Proof.
  intros Hlive Hb.
  destruct (reconcile_facts SecondScreen env isConnected blob shown)
    as (_ & _ & _ & _ & _ & _ & _ & _ & H & _).
  exact (H eq_refl Hlive Hb).
Qed.

Lemma second_screen_keeps_list_populated_witness :
  erpSystems (after (reconcile SecondScreen (answering (inr emptyPayload) false never)
                       (Some true) (Snapshot [cachedCSA]) [])) <> [].
Proof.
  apply (second_screen_keeps_list_populated
           (answering (inr emptyPayload) false never) (Some true)
           (Snapshot [cachedCSA]) [] (fun _ => eq_refl)).
  discriminate.
Defined.

(* The first screen does blank the list on the same input. *)
Example first_screen_blanks_list :
  erpSystems (after (reconcile FirstScreen (answering (inr emptyPayload) false never)
                       (Some true) (Snapshot [cachedCSA]) [])) = [].
Proof. reflexivity. Qed.

(** X10. Cache and screen agree after a write: when a run whose view is
    not torn down writes the cache and the device accepts the write, the
    cache holds exactly the list left on screen. *)
Theorem cache_agrees_with_screen (screen : Screen) (env : Env)
  (isConnected : option bool) (blob : Blob) (shown : list ErpSystem) :
  (forall n, teardown env n = false) ->
  writeRefused env = false ->
  let o := reconcile screen env isConnected blob shown in
  cacheWrites (trace (after o)) <> [] ->
  store (after o) = Snapshot (erpSystems (after o)).
Proof.
  intros Hlive Hw o.
  apply (reconcile_facts screen env isConnected blob shown); assumption.
Qed.

Lemma cache_agrees_with_screen_witness :
  let o := reconcile FirstScreen expiredTokenEnv (Some true) (Snapshot [cachedCSA]) [] in
  store (after o) = Snapshot (erpSystems (after o)).
Proof.
  apply (cache_agrees_with_screen FirstScreen expiredTokenEnv (Some true)
           (Snapshot [cachedCSA]) [] (fun _ => eq_refl) eq_refl).
  discriminate.
Defined.




(** ** The pending-forms badge *)

(** X12. [fetchPendingFormsCount] never rejects and sets the count exactly
    once: to the length of the queue when [getQueue] resolves with an
    array, and to 0 when it resolves with anything else or rejects. *)
Theorem pending_count_never_fails (queue : Error + Value) (b : Badge) :
  let outcome := runBadge queue fetchPendingFormsCount b in
  snd outcome = inr tt
  /\ pendingFormsCount (fst outcome)
     = match queue with
       | inr (JArr items) => List.length items
       | _ => 0%nat
       end
  /\ countUpdates (fst outcome)
     = (countUpdates b ++ [pendingFormsCount (fst outcome)])%list.
Proof.
  destruct queue as [e|[| |x|n|s|items|fields]]; cbn; repeat split.
Qed.

(** ** File names of the export *)

Lemma occurrences_app (c : ascii) (a b : string) :
  occurrences c (a ++ b) = (occurrences c a + occurrences c b)%nat.
Proof. induction a as [|x a IH]; cbn; [reflexivity|]. rewrite IH. lia. Qed.

Lemma replaced_has_no_separator (c : ascii) (s : string) :
  isSeparator c = true -> occurrences c (replaceColonsAndPeriods s) = 0%nat.
Proof.
  intros Hc. induction s as [|x s IH]; cbn; [reflexivity|]. rewrite IH.
  fold (isSeparator x). destruct (isSeparator x) eqn:Hx.
  - destruct (Ascii.eqb_spec "-"%char c) as [<-|]; [discriminate Hc | reflexivity].
  - destruct (Ascii.eqb_spec x c) as [->|]; [congruence | reflexivity].
Qed.

Lemma replaced_length (s : string) :
  String.length (replaceColonsAndPeriods s) = String.length s.
Proof. induction s as [|x s IH]; cbn; [reflexivity | now rewrite IH]. Qed.

Lemma string_length_app (a b : string) :
  String.length (a ++ b) = (String.length a + String.length b)%nat.
Proof. induction a as [|x a IH]; cbn; [reflexivity | now rewrite IH]. Qed.

(** X13. Whatever the timestamp, the export file name contains no colon and
    exactly one period, the one of the extension; it is the timestamp with
    "pending_forms_" before and ".json" after, 19 characters longer. *)
Theorem buildFileName_is_safe (isoNow : string) :
  occurrences ":" (buildFileName isoNow) = 0%nat
  /\ occurrences "." (buildFileName isoNow) = 1%nat
  /\ String.length (buildFileName isoNow) = (String.length isoNow + 19)%nat
  /\ exists stamp,
       buildFileName isoNow = "pending_forms_" ++ stamp ++ ".json"
       /\ String.length stamp = String.length isoNow.
Proof.
  unfold buildFileName. rewrite !occurrences_app, !string_length_app, replaced_length.
  rewrite !replaced_has_no_separator by reflexivity.
  repeat split; try (cbn; lia).
  exists (replaceColonsAndPeriods isoNow). split; [reflexivity | apply replaced_length].
Qed.

Lemma ascii_compare_refl (c : ascii) : Ascii.compare c c = Eq.
Proof. unfold Ascii.compare. apply N.compare_refl. Qed.

Lemma compare_refl (s : string) : String.compare s s = Eq.
Proof. induction s as [|c s IH]; cbn; [reflexivity|]. now rewrite ascii_compare_refl. Qed.

Lemma compare_app_l (p a b : string) :
  String.compare (p ++ a) (p ++ b) = String.compare a b.
Proof. induction p as [|c p IH]; cbn; [reflexivity|]. now rewrite ascii_compare_refl. Qed.

Lemma compare_app_r (a : string) :
  forall b s, String.length a = String.length b ->
              String.compare (a ++ s) (b ++ s) = String.compare a b.
Proof.
  induction a as [|x a IH]; intros [|y b] s H; cbn in *; try discriminate.
  - apply compare_refl.
  - destruct (Ascii.compare x y); try reflexivity. apply IH. now injection H.
Qed.

Lemma sameSeparators_length (a : string) :
  forall b, sameSeparators a b = true -> String.length a = String.length b.
Proof.
  induction a as [|x a IH]; intros [|y b] H; cbn in *; try discriminate.
  - reflexivity.
  - apply andb_prop in H. destruct H as (_ & H). now rewrite (IH b H).
Qed.

Lemma compare_replaced (a : string) :
  forall b, sameSeparators a b = true ->
            String.compare (replaceColonsAndPeriods a) (replaceColonsAndPeriods b)
            = String.compare a b.
Proof.
  induction a as [|x a IH]; intros [|y b] H; cbn in *; try discriminate.
  - reflexivity.
  - apply andb_prop in H. destruct H as (Hxy & H).
    fold (isSeparator x) (isSeparator y) in *.
    destruct (isSeparator x) eqn:Hx, (isSeparator y) eqn:Hy; cbn in Hxy;
      try (apply Ascii.eqb_eq in Hxy; subst y;
           rewrite ?Hx in Hy; try discriminate Hy;
           rewrite !ascii_compare_refl; now apply IH).
    destruct (Ascii.compare x y); try reflexivity. now apply IH.
Qed.

(** X14. The file names sort like the timestamps: for two timestamps of one
    length that differ at no colon and no period (as two ISO timestamps
    do), the file names compare as the timestamps do; in particular
    different timestamps give different file names. *)
Theorem buildFileName_is_sortable (a b : string) :
  sameSeparators a b = true ->
  String.compare (buildFileName a) (buildFileName b) = String.compare a b
  /\ (buildFileName a = buildFileName b -> a = b).
Proof.
  intros H.
  assert (Hc : String.compare (buildFileName a) (buildFileName b)
               = String.compare a b).
  { unfold buildFileName. rewrite compare_app_l, compare_app_r.
    - now apply compare_replaced.
    - rewrite !replaced_length. now apply sameSeparators_length. }
  split; [exact Hc|].
  intros E. apply String.compare_eq_iff. rewrite <- Hc, E. apply compare_refl.
Qed.

Lemma buildFileName_is_sortable_witness :
  String.compare (buildFileName "2025-01-02T03:04:05.678Z")
                 (buildFileName "2025-01-02T03:04:06.001Z") = Lt.
Proof.
  exact (proj1 (buildFileName_is_sortable "2025-01-02T03:04:05.678Z"
                  "2025-01-02T03:04:06.001Z" eq_refl)).
Defined.

(** ** The calls of one export *)

Lemma attempt_log {Fs : Type} (impl : Rnfs Fs) (fileName payload directory : string)
  (d : Disk Fs) :
  exists made,
    calls (fst (attempt impl fileName payload directory d)) = (calls d ++ made)%list
    /\ attemptLog fileName payload directory
         (match snd (attempt impl fileName payload directory d) with
          | inr _ => true
          | inl _ => false
          end) made.
Proof.
  unfold attempt, writeTo, attemptLog, when, bindM, call, perform, ret, throw.
  cbn [bind runFs handleFs].
  repeat match goal with
         | |- context [fsExists impl ?p ?f] =>
             destruct (fsExists impl p f) as [[?|[]] ?]; cbn
         | |- context [fsMkdir impl ?p ?f] =>
             destruct (fsMkdir impl p f) as [[?|[]] ?]; cbn
         | |- context [fsWriteFile impl ?p ?c ?f] =>
             destruct (fsWriteFile impl p c f) as [[?|[]] ?]; cbn
         end.
  all: eexists; split; [rewrite <- ?app_assoc; reflexivity|]; cbn.
  all: repeat match goal with |- _ /\ _ => split end; try lia; try discriminate.
  all: try (intros path contents H;
            repeat destruct H as [H|H]; try discriminate H; try contradiction;
            now injection H).
  - intros _. exists [Exists directory]. reflexivity.
  - intros _. exists [Exists directory; Mkdir directory]. reflexivity.
Qed.

Lemma writesOf_app (a b : list FsCall) :
  writesOf (a ++ b) = (writesOf a ++ writesOf b)%list.
Proof. apply filter_app. Qed.

Lemma tryDirectories_log {Fs : Type} (impl : Rnfs Fs) (fileName payload : string)
  (directories : list string) :
  forall (d : Disk Fs) (last : option Error),
  exists made,
    calls (fst (runFs impl (tryDirectories fileName payload directories last) d))
    = (calls d ++ made)%list
    /\ (List.length made <= 4 * List.length directories)%nat
    /\ (List.length (writesOf made) <= List.length directories)%nat
    /\ (forall path contents, In (WriteFile path contents) made -> contents = payload)
    /\ (forall filePath name directory,
          snd (runFs impl (tryDirectories fileName payload directories last) d)
          = inr (StatusSuccess filePath name directory) ->
          exists before,
            made = (before ++ [WriteFile filePath payload; Exists filePath])%list).
Proof.
  induction directories as [|directory rest IH]; intros d last.
  - exists []. cbn. rewrite app_nil_r. repeat split; try lia; try contradiction.
    discriminate.
  - rewrite tryDirectories_step.
    destruct (attempt_log impl fileName payload directory d)
      as (m1 & E1 & L1 & W1 & P1 & S1).
    pose proof (attempt_success impl fileName payload directory d) as Hst.
    destruct (attempt impl fileName payload directory d) as [d1 [error|st]];
      cbn [fst snd] in *.
    + destruct (IH (noteFailure "[Export] Failed to write to" d1) (Some error))
        as (m2 & E2 & L2 & W2 & P2 & S2).
      exists (m1 ++ m2)%list. rewrite E2. cbn [noteFailure calls]. rewrite E1.
      rewrite app_assoc, writesOf_app, !List.length_app. cbn [List.length].
      repeat split; try lia.
      * intros path contents H. apply in_app_or in H. destruct H; eauto.
      * intros filePath name dir H. destruct (S2 filePath name dir H) as (before & ->).
        exists (m1 ++ before)%list. now rewrite app_assoc.
    + exists m1. cbn [List.length]. repeat split; try lia; try assumption.
      intros filePath name dir H. injection H as ->.
      specialize (Hst d1 _ eq_refl). injection Hst as -> _ _.
      exact (S1 eq_refl).
Qed.

Lemma targetDirectories_shape (platform : Platform) :
  exists earlier,
    targetDirectories platform = (earlier ++ [DocumentDirectoryPath platform])%list
    /\ (List.length earlier <= 2)%nat
    /\ (String.eqb (OS platform) "android" = false -> earlier = []).
Proof.
  unfold targetDirectories. destruct (OS platform =? "android")%string.
  - eexists. rewrite app_assoc. split; [reflexivity|].
    rewrite List.length_app.
    destruct (pathTruthy (DownloadDirectoryPath platform)),
             (pathTruthy (ExternalStorageDirectoryPath platform));
      cbn; split; try lia; discriminate.
  - exists []. repeat split. cbn. lia.
Qed.

Lemma export_run {Fs : Type} (impl : Rnfs Fs) (platform : Platform)
  (isoNow : string) (stringify : Value -> string) (d : Disk Fs) :
  runFs impl (exportPendingFormsToFile platform isoNow stringify) d
  = match pending d with
    | inl e => (d, inl e)
    | inr queue =>
        if queueIsEmpty queue then (d, inr StatusEmpty)
        else runFs impl (tryDirectories (buildFileName isoNow) (stringify queue)
                           (targetDirectories platform) None) d
    end.
Proof.
  unfold exportPendingFormsToFile, bindM, call. cbn [bind runFs handleFs].
  destruct (pending d) as [e|queue]; [reflexivity|].
  destruct (queueIsEmpty queue); reflexivity.
Qed.

(** X15. One export makes at most four RNFS calls and at most one write per
    candidate directory, so at most twelve calls and three writes in all
    (four and one outside Android); every write carries the serialized
    queue, and nothing is called when the queue cannot be read. *)
Theorem export_calls_are_bounded {Fs : Type} (impl : Rnfs Fs)
  (platform : Platform) (isoNow : string) (stringify : Value -> string)
  (d : Disk Fs) :
  let outcome := runFs impl (exportPendingFormsToFile platform isoNow stringify) d in
  exists made,
    calls (fst outcome) = (calls d ++ made)%list
    /\ (List.length made <= 4 * List.length (targetDirectories platform) <= 12)%nat
    /\ (List.length (writesOf made) <= List.length (targetDirectories platform) <= 3)%nat
    /\ (String.eqb (OS platform) "android" = false ->
        (List.length made <= 4)%nat /\ (List.length (writesOf made) <= 1)%nat)
    /\ (forall path contents,
          In (WriteFile path contents) made ->
          exists queue, pending d = inr queue /\ contents = stringify queue)
    /\ (forall e, pending d = inl e -> made = [] /\ snd outcome = inl e).
Proof.
  destruct (targetDirectories_shape platform) as (earlier & Hd & Hlen & Hios).
  assert (Hn : (List.length (targetDirectories platform) <= 3)%nat)
    by (rewrite Hd, List.length_app; cbn; lia).
  cbv zeta. rewrite export_run.
  destruct (pending d) as [e|queue] eqn:Hq; cbn [fst snd].
  { exists []. rewrite app_nil_r. cbn.
    repeat split; try lia; try contradiction; congruence. }
  destruct (queueIsEmpty queue); cbn [fst snd].
  { exists []. rewrite app_nil_r. cbn. repeat split; try lia; try contradiction;
      discriminate. }
  destruct (tryDirectories_log impl (buildFileName isoNow) (stringify queue)
              (targetDirectories platform) d None) as (made & E & L & W & P & _).
  exists made.
  split; [exact E|]. split; [lia|]. split; [lia|].
  split; [|split].
  - intros Hos. rewrite Hd, (Hios Hos) in L, W. cbn in L, W. lia.
  - intros path contents H. exists queue. split; [reflexivity | eauto].
  - intros e He. discriminate He.
Qed.

(** X16. The export answers [success] only at the end of an attempt: the
    last two RNFS calls are then the write of the serialized queue to the
    reported path and the look whether that path exists. *)
Theorem export_success_follows_read_back {Fs : Type} (impl : Rnfs Fs)
  (platform : Platform) (isoNow : string) (stringify : Value -> string)
  (d : Disk Fs) (queue : Value) (filePath fileName directory : string) :
  pending d = inr queue ->
  let outcome := runFs impl (exportPendingFormsToFile platform isoNow stringify) d in
  snd outcome = inr (StatusSuccess filePath fileName directory) ->
  filePath = directory ++ "/" ++ fileName
  /\ fileName = buildFileName isoNow
  /\ In directory (targetDirectories platform)
  /\ exists before,
       calls (fst outcome)
       = (before ++ [WriteFile filePath (stringify queue); Exists filePath])%list.
Proof.
  intros Hq. cbv zeta. rewrite export_run, Hq.
  destruct (queueIsEmpty queue); cbn [fst snd]; [discriminate|].
  intros H.
  destruct (tryDirectories_log impl (buildFileName isoNow) (stringify queue)
              (targetDirectories platform) d None) as (made & E & _ & _ & _ & S).
  destruct (S _ _ _ H) as (before & ->).
  assert (Hshape : forall directories (d0 : Disk Fs) last,
             snd (runFs impl (tryDirectories (buildFileName isoNow) (stringify queue)
                                directories last) d0)
             = inr (StatusSuccess filePath fileName directory) ->
             filePath = directory ++ "/" ++ fileName
             /\ fileName = buildFileName isoNow /\ In directory directories).
  { induction directories as [|dir rest IH]; intros d0 last H0.
    - discriminate H0.
    - rewrite tryDirectories_step in H0.
      pose proof (attempt_success impl (buildFileName isoNow) (stringify queue) dir d0)
        as Hst.
      destruct (attempt impl (buildFileName isoNow) (stringify queue) dir d0)
        as [d1 [error|st]].
      + destruct (IH _ _ H0) as (A & B & C). repeat split; auto. now right.
      + cbn in H0. injection H0 as ->. specialize (Hst d1 _ eq_refl).
        injection Hst as -> -> ->. repeat split. now left. }
  destruct (Hshape _ _ _ H) as (A & B & C).
  repeat split; try assumption.
  exists (calls d ++ before)%list. rewrite E. now rewrite app_assoc.
Qed.

Lemma export_success_follows_read_back_witness :
  exists before,
    calls (fst (runFs memFs
                  (exportPendingFormsToFile samplePhone "2025-01-02T03:04:05.678Z"
                     (fun _ => "[]")) sampleDisk))
    = (before
       ++ [WriteFile "/mnt/sdcard/Download/pending_forms_2025-01-02T03-04-05-678Z.json" "[]";
           Exists "/mnt/sdcard/Download/pending_forms_2025-01-02T03-04-05-678Z.json"])%list.
Proof.
  exact (proj2 (proj2 (proj2
    (export_success_follows_read_back memFs samplePhone "2025-01-02T03:04:05.678Z"
       (fun _ => "[]") sampleDisk sampleQueue
       "/mnt/sdcard/Download/pending_forms_2025-01-02T03-04-05-678Z.json"
       "pending_forms_2025-01-02T03-04-05-678Z.json" "/mnt/sdcard/Download"
       eq_refl eq_refl)))).
Defined.

(** X17. The app's own documents directory is always the last candidate,
    so an [error] answer always carries the failure met in that directory:
    the export fails only if the attempt on DocumentDirectoryPath fails. *)
Theorem export_error_is_documents_failure {Fs : Type} (impl : Rnfs Fs)
  (platform : Platform) (isoNow : string) (stringify : Value -> string)
  (d : Disk Fs) (queue : Value) (cause : option Error) :
  pending d = inr queue ->
  snd (runFs impl (exportPendingFormsToFile platform isoNow stringify) d)
  = inr (StatusError cause) ->
  exists earlier d0 d0' error,
    targetDirectories platform = (earlier ++ [DocumentDirectoryPath platform])%list
    /\ attempt impl (buildFileName isoNow) (stringify queue)
         (DocumentDirectoryPath platform) d0 = (d0', inl error)
    /\ cause = Some error.
Proof.
  intros Hq. rewrite export_run, Hq.
  destruct (queueIsEmpty queue); cbn [fst snd]; [discriminate|].
  intros H.
  destruct (targetDirectories_shape platform) as (earlier & Hd & _).
  destruct (runFs impl (tryDirectories (buildFileName isoNow) (stringify queue)
                          (targetDirectories platform) None) d) as [d' r] eqn:R.
  cbn in H. subst r.
  destruct (error_only_when_all_fail _ _ _ _ _ _ _ _ R) as (d1 & A & _).
  rewrite Hd in A.
  destruct (allFail_last _ _ _ _ _ _ _ _ _ A) as (d0 & before & d0' & error & _ & B & C).
  exists earlier, d0, d0', error. repeat split; assumption.
Qed.

Lemma export_error_is_documents_failure_witness :
  let locked := Build_Disk {| paths := []; refusing := ["/"]; losing := [] |}
                           (inr sampleQueue) [] [] in
  snd (runFs memFs (exportPendingFormsToFile samplePhone "2025-01-02T03:04:05.678Z"
                      (fun _ => "[]")) locked)
  = inr (StatusError (Some (newError "EACCES: permission denied"))).
Proof.
  intros locked.
  destruct (export_error_is_documents_failure memFs samplePhone
              "2025-01-02T03:04:05.678Z" (fun _ => "[]") locked sampleQueue
              (Some (newError "EACCES: permission denied")) eq_refl eq_refl)
    as (_ & _ & _ & _ & _ & _ & _).
  reflexivity.
Defined.

(** ** The export hook *)

Lemma runHook_bind {Fs : Type} (impl : Rnfs Fs) {A B : Type} (p : prog HookE A)
  (f : A -> prog HookE B) (h : Hook Fs) :
  runHook impl (bind p f) h
  = let (h1, a) := runHook impl p h in runHook impl (f a) h1.
Proof.
  unfold runHook. revert h.
  induction p as [a|R e k IH]; intros h; cbn; [reflexivity|].
  destruct (handleHook impl e h) as [h1 r]. apply IH.
Qed.

Lemma runHook_liftFs {Fs : Type} (impl : Rnfs Fs) {A : Type} (p : prog FsE A)
  (h : Hook Fs) :
  runHook impl (liftFs p) h
  = (withDisk (fst (runFs impl p (disk h))) h, snd (runFs impl p (disk h))).
Proof.
  unfold runHook. revert h.
  induction p as [a|R e k IH]; intros h; cbn.
  - destruct h; reflexivity.
  - destruct (handleFs impl e (disk h)) as [d1 r] eqn:E. rewrite IH. reflexivity.
Qed.

Lemma fileUrlOf_file (platform : Platform) (filePath directory : string) :
  fileUrlOf platform filePath directory = "file://" ++ filePath.
Proof.
  unfold fileUrlOf. destruct (OS platform =? "android")%string; [|reflexivity].
  destruct (includes directory "Download"); reflexivity.
Qed.

Lemma runHook_Vis {Fs : Type} (impl : Rnfs Fs) {A R : Type} (e : HookE R)
  (k : R -> prog HookE A) (h : Hook Fs) :
  runHook impl (Vis e k) h
  = let (h1, r) := handleHook impl e h in runHook impl (k r) h1.
Proof. reflexivity. Qed.

(* The whole effect of one press on the export button. *)
Lemma handleExport_run {Fs : Type} (impl : Rnfs Fs) (platform : Platform)
  (isoNow : string) (stringify : Value -> string) (h : Hook Fs) :
  exists d' logs',
    runHook impl (handleExport false platform isoNow stringify) h
    = (Build_Hook d' false ((exportingUpdates h ++ [true]) ++ [false])
         (alerts h
          ++ [alertFor impl
                (runFs impl (exportPendingFormsToFile platform isoNow stringify)
                   (disk h))])
         (shared h) (shareOutcome h) logs',
       inr tt).
Proof.
  unfold handleExport, tryFinally, tryCatch.
  rewrite runHook_bind, runHook_bind.
  unfold bindM at 1. unfold perform at 1. cbn [bind].
  rewrite runHook_Vis. cbn [handleHook].
  unfold bindM at 1. rewrite runHook_bind, runHook_liftFs. cbn [disk withDisk].
  unfold alertFor.
  destruct (runFs impl (exportPendingFormsToFile platform isoNow stringify) (disk h))
    as [d1 [e|[|filePath fileName directory|cause]]]; cbn [fst snd].
  - do 2 eexists. cbn; reflexivity.
  - do 2 eexists. cbn; reflexivity.
  - unfold bindM, call. cbn [bind]. rewrite runHook_Vis.
    cbn [handleHook handleFs disk withDisk].
    destruct (fsExists impl filePath (files d1)) as [[e|[]] f1];
      do 2 eexists; cbn; reflexivity.
  - do 2 eexists. cbn; reflexivity.
Qed.

(** X18. One press on the export button never rejects and always leaves
    [isExporting] false: it is set to true, then back to false in
    [finally], on every path.  A press made while the callback still sees
    [isExporting] true does nothing at all: no export, no alert, no state
    change. *)
Theorem handleExport_guards_and_resets {Fs : Type} (impl : Rnfs Fs)
  (platform : Platform) (isoNow : string) (stringify : Value -> string)
  (h : Hook Fs) :
  runHook impl (handleExport true platform isoNow stringify) h = (h, inr tt)
  /\ let outcome := runHook impl (handleExport false platform isoNow stringify) h in
     snd outcome = inr tt
     /\ exporting (fst outcome) = false
     /\ exportingUpdates (fst outcome) = (exportingUpdates h ++ [true; false])%list
     /\ shared (fst outcome) = shared h.
Proof.
  split; [reflexivity|].
  destruct (handleExport_run impl platform isoNow stringify h) as (d' & logs' & ->).
  cbn [fst snd exporting exportingUpdates shared]. rewrite <- app_assoc.
  repeat split.
Qed.

(** X19. One press raises exactly one alert, chosen by the export result:
    "no forms" for [empty]; the error alert for [error], for a rejected
    queue read, and also for a [success] whose file is not found (or whose
    look-up rejects) when the hook looks again; the success alert, the
    only one with an OK button, for a [success] whose file is still
    there. *)
Theorem handleExport_raises_one_alert {Fs : Type} (impl : Rnfs Fs)
  (platform : Platform) (isoNow : string) (stringify : Value -> string)
  (h : Hook Fs) :
  let exported :=
    runFs impl (exportPendingFormsToFile platform isoNow stringify) (disk h) in
  let outcome := runHook impl (handleExport false platform isoNow stringify) h in
  alerts (fst outcome) = (alerts h ++ [alertFor impl exported])%list
  /\ (hasOkButton (alertFor impl exported) = true <->
      exists filePath fileName directory,
        snd exported = inr (StatusSuccess filePath fileName directory)
        /\ fst (fsExists impl filePath (files (fst exported))) = inr true
        /\ alertFor impl exported = successAlert fileName)
  /\ (snd exported = inr StatusEmpty -> alertFor impl exported = noFormsAlert)
  /\ (forall cause, snd exported = inr (StatusError cause) ->
                    alertFor impl exported = errorAlert).
Proof.
  intros exported outcome. subst outcome.
  destruct (handleExport_run impl platform isoNow stringify h) as (d' & logs' & ->).
  fold exported. split; [reflexivity|].
  unfold alertFor.
  destruct (snd exported) as [e|[|filePath fileName directory|cause]];
    [| |destruct (fst (fsExists impl filePath (files (fst exported))))
          as [e|[]] eqn:E|].
  all: repeat match goal with
              | |- _ /\ _ => split
              | |- _ <-> _ => split
              end.
  all: try (intros H; discriminate H).
  all: try (intros c H; discriminate H).
  all: try (intros (p & f & dir & H & H' & _);
            first [ discriminate H | injection H as <- <- <-; congruence ]).
  all: try reflexivity.
  intros _. exists filePath, fileName, directory. repeat split. exact E.
Qed.

(** X20. The OK button of the success alert shares the URL "file://" followed
    by the file path on every platform and for every directory (the
    Android branches compute the same URL), never rejects, and shows where
    the file is exactly when sharing rejects or, on Android, is
    dismissed. *)
Theorem share_url_is_the_file_path {Fs : Type} (impl : Rnfs Fs)
  (platform : Platform) (filePath fileName directory : string) (h : Hook Fs) :
  let outcome :=
    runHook impl (onPressOk platform filePath fileName directory) h in
  snd outcome = inr tt
  /\ (exists content,
        shared (fst outcome) = (shared h ++ [content])%list
        /\ url content = "file://" ++ filePath
        /\ subject content = fileName)
  /\ alerts (fst outcome)
     = (alerts h
        ++ if match shareOutcome h with
              | inl _ => true
              | inr dismissedAction => String.eqb (OS platform) "android"
              | inr sharedAction => false
              end
           then [fileLocationAlert fileName directory]
           else [])%list
  /\ disk (fst outcome) = disk h
  /\ exporting (fst outcome) = exporting h.
Proof.
  unfold onPressOk. rewrite fileUrlOf_file.
  unfold runHook, tryCatch, bindM, call, perform, when, locationAlert, ret.
  cbn [bind interp handleHook].
  destruct (shareOutcome h) as [e|[]] eqn:S; cbn.
  - repeat split; try (rewrite ?app_nil_r; reflexivity). eexists. repeat split.
  - destruct (OS platform =? "android")%string; cbn;
      repeat split; try (rewrite ?app_nil_r; reflexivity); eexists; repeat split.
  - destruct (OS platform =? "android")%string; cbn;
      repeat split; try (rewrite ?app_nil_r; reflexivity); eexists; repeat split.
Qed.

(** ** The start-up check *)

Ltac auth_cases dev :=
  unfold runAuth, checkAuthState, routeFor, hasIdToken, sessionExpired,
    tryFinally, tryCatch, bindM, call, perform;
  destruct dev as [[e1|tokens] [e2|[[]|]] [e3|[]]];
  cbn [storedTokens netInfo refreshed bind interp handleAuth fst snd];
  try destruct (truthy (optionalGet tokens "idToken")) eqn:Hid;
  cbn [storedTokens netInfo refreshed bind interp handleAuth fst snd];
  try destruct (includes (messageOrEmpty e3) "SESSION_EXPIRED") eqn:Hexp;
  cbn.

(** X21. The start-up check never rejects, always ends with [isLoading]
    false and sets the initial route exactly once.  The route is MainApp
    exactly when an id token is stored, the connectivity look-up resolves,
    and, if the device is online, the token refresh does not fail with a
    message containing SESSION_EXPIRED; every other case (no token, a
    rejected token read, a rejected connectivity look-up, an expired
    session) leads to Login. *)
Theorem checkAuthState_sets_route_once (dev : Device) :
  let outcome := runAuth dev checkAuthState starting in
  snd outcome = inr tt
  /\ isLoading (fst outcome) = false
  /\ routeUpdates (fst outcome) = [routeFor dev]
  /\ initialRoute (fst outcome) = routeFor dev
  /\ (routeFor dev = MainApp <->
      hasIdToken dev = true
      /\ (exists connected, netInfo dev = inr connected)
      /\ (netInfo dev = inr (Some true) -> sessionExpired dev = false)).
Proof.
  auth_cases dev.
  all: repeat match goal with
              | |- _ /\ _ => split
              | |- _ <-> _ => split
              end.
  all: try reflexivity; try discriminate.
  all: try (intros (H1 & (c & H2) & H3); first [ discriminate H1 | discriminate H2
                                               | specialize (H3 eq_refl); discriminate H3 ]).
  all: try (intros H; discriminate H).
  all: intros _; split; [reflexivity|]; split; [eexists; reflexivity|];
    intros H; first [ reflexivity | discriminate H ].
Qed.

(** X22. The start-up check reads the stored tokens first, looks up the
    connectivity only when an id token is stored, and calls the token
    refresh only when, in addition, the device reports to be connected:
    offline, or with an unknown connectivity, the refresh is never
    attempted. *)
Theorem checkAuthState_refreshes_only_online (dev : Device) :
  authCalls (fst (runAuth dev checkAuthState starting))
  = ReadTokens
    :: (if hasIdToken dev
        then FetchNetInfo
             :: match netInfo dev with
                | inr (Some true) => [RefreshTokens]
                | _ => []
                end
        else []).
Proof. auth_cases dev; reflexivity. Qed.

(* An offline start with stored tokens lets the user in without a refresh. *)
Example offline_start_enters_app :
  let dev := {| storedTokens := inr (JObj [("idToken", JStr "abc")]);
                netInfo := inr (Some false);
                refreshed := inl (newError "SESSION_EXPIRED") |} in
  initialRoute (fst (runAuth dev checkAuthState starting)) = MainApp
  /\ authCalls (fst (runAuth dev checkAuthState starting)) = [ReadTokens; FetchNetInfo].
Proof. split; reflexivity. Qed.
